(** * Octo profile creator: a shallow embedding of [main.py]

    The script reads a proxy table and an optional cookie map, then posts one
    profile-creation request per loop iteration, pausing when the rate-limit
    headers of a reply run low.

    Conventions of the embedding
    - a Python [str] is a [string] whose characters are code points below 256;
    - a Python [int] is a [Z];
    - a [dict] with string keys is a [gmap string _];
    - a row of the proxy file is the dict that [csv.DictReader] yields, held
      as the list of its items in the order of [items()], one item per
      field name;
    - console output, sleeps and HTTP requests are events of a trace; a
      computation reads the history of earlier events and appends its own;
    - an exception is a value of [exn]; [sys.exit] is the exception
      [SystemExit], as in Python. *)

From Stdlib Require Import ZArith String Ascii.
From Stdlib Require Import Floats.SpecFloat.
From stdpp Require Import gmap strings list pretty.

Local Open Scope Z_scope.

(** ** Python primitives used by the script *)

Module Py.

Definition code (c : ascii) : N := N_of_ascii c.

(** [str.isspace] on one character, restricted to code points below 256:
    TAB..CR, FS..US, SPACE, NEL and NBSP. *)
Definition isspace (c : ascii) : bool :=
  let n := code c in
  ((9 <=? n) && (n <=? 13) || (28 <=? n) && (n <=? 31)
   || (n =? 32) || (n =? 133) || (n =? 160))%N.

Fixpoint lstrip_with (f : ascii → bool) (s : string) : string :=
  match s with
  | String c r => if f c then lstrip_with f r else s
  | EmptyString => EmptyString
  end.

Definition rstrip_with (f : ascii → bool) (s : string) : string :=
  String.rev (lstrip_with f (String.rev s)).

(** [s.strip()] *)
Definition strip (s : string) : string :=
  rstrip_with isspace (lstrip_with isspace s).

(** [s.lstrip(chars)] *)
Definition lstrip (chars : string) (s : string) : string :=
  lstrip_with (λ c, bool_decide (c ∈ list_ascii_of_string chars)) s.

(** [s.lower()] on code points below 256. *)
Definition lower_char (c : ascii) : ascii :=
  let n := code c in
  if ((65 <=? n) && (n <=? 90)
      || (192 <=? n) && (n <=? 222) && negb (n =? 215))%N
  then ascii_of_N (n + 32) else c.

Fixpoint lower (s : string) : string :=
  match s with
  | String c r => String (lower_char c) (lower r)
  | EmptyString => EmptyString
  end.

(** Truth value of a [str]. *)
Definition str_truthy (s : string) : bool :=
  match s with EmptyString => false | _ => true end.

(** *** [int(s)] for a [str] argument, base 10

    The interpreter first maps every non-ASCII white space to a blank and
    rejects every other non-ASCII character, then reads: blanks, an optional
    sign, digits with single underscores between them, blanks.  ASCII white
    space here is TAB..CR and SPACE only. *)
Definition int_isspace (c : ascii) : bool :=
  let n := code c in
  ((9 <=? n) && (n <=? 13) || (n =? 32) || (n =? 133) || (n =? 160))%N.

Definition digit_value (c : ascii) : option Z :=
  let n := code c in
  if ((48 <=? n) && (n <=? 57))%N then Some (Z.of_N n - 48) else None.

(** The interpreter's default limit on the digits of a converted string. *)
Definition int_max_str_digits : nat := 4300.

(** Scan digits and underscores; [prev_us] tells whether the previous
    character was an underscore.  Returns the value, the number of digits
    and the unread rest. *)
Fixpoint scan_digits (s : string) (prev_us : bool) (acc : Z) (digits : nat)
  : option (Z * nat * string) :=
  match s with
  | String c r =>
      match digit_value c with
      | Some d => scan_digits r false (10 * acc + d) (S digits)
      | None =>
          if Ascii.eqb c "_"
          then if prev_us then None else scan_digits r true acc digits
          else if prev_us then None else Some (acc, digits, s)
      end
  | EmptyString => if prev_us then None else Some (acc, digits, s)
  end.

Definition int_of_str (s : string) : option Z :=
  let s := lstrip_with int_isspace s in
  let '(sign, s) :=
    match s with
    | String "+" r => (1, r)
    | String "-" r => (-1, r)
    | _ => (1, s)
    end in
  match s with
  | String "_" _ => None
  | _ =>
      match scan_digits s false 0 0 with
      | Some (v, digits, rest) =>
          if bool_decide (digits = 0%nat) then None
          else if bool_decide (int_max_str_digits < digits)%nat then None
          else match lstrip_with int_isspace rest with
               | EmptyString => Some (sign * v)
               | _ => None
               end
      | None => None
      end
  end.

End Py.

(** ** Values decoded from JSON ([json.loads], [Response.json]) *)

#[warnings="-register-all"]
Inductive json : Type :=
| JNull
| JBool (b : bool)
| JInt (z : Z)
| JFloat (f : spec_float)
| JStr (s : string)
| JArr (l : list json)
| JObj (m : gmap string json).

(** Truth value of a decoded value, as tested by [if cookies:]. *)
Definition truthy (v : json) : bool :=
  match v with
  | JNull => false
  | JBool b => b
  | JInt z => negb (z =? 0)
  | JFloat (S754_zero _) => false
  | JFloat _ => true
  | JStr s => Py.str_truthy s
  | JArr l => match l with [] => false | _ => true end
  | JObj m => negb (bool_decide (dom m = ∅))
  end.

(** ** Data model *)

(** One row as [csv.DictReader] yields it, a dict. [fields] are the items of
    the dict that have a [str] key, in the order of [row.items()]: one item
    for each field name, so the names are pairwise different
    ([distinct_names]); for a name that the header repeats the dict holds
    the cell of the last column so named ([Csv.DictReader_row]), and the
    value is [None] where the record is shorter than the header. [surplus]
    are the values under the key [None], those of a record longer than the
    header. *)
Record csv_row := {
  fields : list (string * option string);
  surplus : list string
}.

(** What [load_proxies] finds at its path. [Unsniffable]: the sniffer could
    not determine the dialect. *)
Inductive proxy_source :=
| ProxyFileMissing
| Unsniffable
| ProxyRows (rows : list csv_row).

(** What [load_cookies] finds at its path. *)
Inductive cookie_source :=
| CookieFileMissing
| NotJson
| CookieJson (data : json).

(** The request body built in [main]; [cookies = None] is a payload
    without the key ["cookies"]. *)
Record Payload := {
  title : string;
  proxy : gmap string string;
  fingerprint : gmap string string;
  cookies : option json
}.

(** A [requests.Response]: [headers] is the store of the case-insensitive
    dictionary, keyed by the lower-cased header name; [json_body] is what
    [resp.json()] decodes, [None] when the body is not JSON. *)
Record Response := {
  status_code : Z;
  headers : gmap string string;
  text : string;
  json_body : option json
}.

(** Exceptions [requests.post] raises by itself; none is an [HTTPError]. *)
Inductive transport_error := ConnectionError | Timeout | TooManyRedirects.

Inductive post_result :=
| PostRaises (e : transport_error)
| PostResponse (r : Response).

Inductive exit_msg :=
| ProxiesFileNotFound
| InvalidProxyRow (row : csv_row)
| NoProxiesLoaded
| CookiesNotObject.

Inductive exn :=
| SystemExit (m : exit_msg)
| HTTPError (response : Response)
| RequestException (e : transport_error)
| JSONDecodeError
| CsvError
| ValueError
| KeyError (k : string)
| TypeError
| StopIteration.

(** Lines written by [print]. *)
Inductive line :=
| LLimits (rpm rph : Z)
| LRpmWarning
| LRphWarning
| LCreated (idx : Z) (uuid : json)
| LHttpError (idx : Z) (e : Response)
| LServerResponse (body : string).

Inductive event :=
| EPost (url : string) (payload : Payload)
| EPrint (l : line)
| ESleep (seconds : Z).

Inductive result (A : Type) :=
| Ok (a : A)
| Raise (e : exn).
Arguments Ok {A} a.
Arguments Raise {A} e.

(** ** Computations with a trace

    A computation gets the history of all earlier events and returns the
    events it adds, with its value or the exception it raised. *)
Definition M (A : Type) : Type := list event → list event * result A.

Definition ret {A} (a : A) : M A := λ _, ([], Ok a).

Definition raise {A} (e : exn) : M A := λ _, ([], Raise e).

Definition bind {A B} (m : M A) (k : A → M B) : M B := λ h,
  match m h with
  | (ev1, Ok a) => let '(ev2, r) := k a (h ++ ev1) in (ev1 ++ ev2, r)
  | (ev1, Raise e) => (ev1, Raise e)
  end.

Definition lift {A} (r : result A) : M A := λ _, ([], r).

Definition emit (e : event) : M unit := λ _, ([e], Ok tt).

Definition print (l : line) : M unit := emit (EPrint l).

Definition sleep (seconds : Z) : M unit := emit (ESleep seconds).

(** [try: body  except requests.HTTPError as e: handler] *)
Definition try_except_HTTPError {A} (body : M A) (handler : Response → M A)
  : M A := λ h,
  match body h with
  | (ev1, Raise (HTTPError resp)) =>
      let '(ev2, r) := handler resp (h ++ ev1) in (ev1 ++ ev2, r)
  | out => out
  end.

Notation "'do' x <- m ; k" := (bind m (λ x, k))
  (at level 10, x name, m at level 100, k at level 200).
Notation "'do' ' p <- m ; k" := (bind m (λ x, match x with p => k end))
  (at level 10, p pattern, m at level 100, k at level 200).

(** The profile-creation requests of a trace, in order. *)
Definition posts (t : list event) : list Payload :=
  omap (λ e, match e with EPost _ p => Some p | _ => None end) t.

(** The pauses of a trace, in order. *)
Definition sleeps (t : list event) : list Z :=
  omap (λ e, match e with ESleep n => Some n | _ => None end) t.

(** ** [itertools.cycle] *)

Module Itertools.

(** The iterator object: the source iterator still being consumed ([None]
    once it is exhausted and dropped), the items saved so far and the
    position in the saved items. *)
Record cycle_state (A : Type) := {
  it : option (list A);
  saved : list A;
  index : nat
}.
Arguments it {A} _.
Arguments saved {A} _.
Arguments index {A} _.

(** [itertools.cycle(l)] *)
Definition cycle {A} (l : list A) : cycle_state A :=
  {| it := Some l; saved := []; index := 0 |}.

(** Replay the saved items. *)
Definition replay {A} (c : cycle_state A) : option A * cycle_state A :=
  match saved c !! index c with
  | None => (None, {| it := None; saved := saved c; index := index c |})
  | Some x =>
      let i := S (index c) in
      (Some x,
       {| it := None; saved := saved c;
          index := if bool_decide (length (saved c) ≤ i)%nat
                   then 0%nat else i |})
  end.

(** [next(c)]: the item, or [None] for [StopIteration], and the iterator
    afterwards. *)
Definition next {A} (c : cycle_state A) : option A * cycle_state A :=
  match it c with
  | Some (x :: r) =>
      (Some x, {| it := Some r; saved := saved c ++ [x]; index := index c |})
  | Some [] | None => replay c
  end.

End Itertools.

(** ** Configuration constants *)

Definition API_BASE : string := "https://app.octobrowser.net/api/v2/automation".

Definition DEFAULT_FP : gmap string string :=
  <["screen" := "1920x1080"]> (<["os" := "win"]> ∅).

(** ** Utilities *)

(** [str(x)] for a [str] argument. *)
Definition py_str (s : string) : string := s.

(** [{k.strip(): v.strip() for k, v in row.items() if v and k}]: the entry
    under the key [None] never passes the filter. *)
Definition strip_row (row : csv_row) : gmap string string :=
  foldl (λ p kv,
           match kv with
           | (k, Some v) =>
               if Py.str_truthy v && Py.str_truthy k
               then <[Py.strip k := Py.strip v]> p
               else p
           | (_, None) => p
           end) ∅ (fields row).

(** Body of the [for row in reader] loop; the [KeyError] of [p["port"]] is
    caught by [except Exception]. *)
Definition load_row (row : csv_row) : result (gmap string string) :=
  let p := strip_row row in
  match p !! "port" with
  | Some port => Ok (<["port" := py_str port]> p)
  | None => Raise (SystemExit (InvalidProxyRow row))
  end.

Fixpoint load_rows (rows : list csv_row) (proxies : list (gmap string string))
  : result (list (gmap string string)) :=
  match rows with
  | [] => Ok proxies
  | row :: rest =>
      match load_row row with
      | Ok p => load_rows rest (proxies ++ [p])
      | Raise e => Raise e
      end
  end.

(** [sniff] and [csv.DictReader] belong to the library: what they find at
    the path is the argument. *)
Definition load_proxies (path : proxy_source)
  : result (list (gmap string string)) :=
  match path with
  | ProxyFileMissing => Raise (SystemExit ProxiesFileNotFound)
  | Unsniffable => Raise CsvError
  | ProxyRows rows =>
      match load_rows rows [] with
      | Ok [] => Raise (SystemExit NoProxiesLoaded)
      | out => out
      end
  end.

Definition load_cookies (path : cookie_source) : result (gmap string json) :=
  match path with
  | CookieFileMissing => Ok ∅
  | NotJson => Raise JSONDecodeError
  | CookieJson (JObj data) => Ok data
  | CookieJson _ => Raise (SystemExit CookiesNotObject)
  end.

(** [response.headers.get(key, default)] on the case-insensitive dictionary. *)
Definition headers_get (response : Response) (key : string) (default : Z)
  : string + Z :=
  match headers response !! Py.lower key with
  | Some v => inl v
  | None => inr default
  end.

(** [int(x)] for a [str] or an [int]. *)
Definition py_int (x : string + Z) : result Z :=
  match x with
  | inl s =>
      match Py.int_of_str s with
      | Some z => Ok z
      | None => Raise ValueError
      end
  | inr z => Ok z
  end.

(** [resp.raise_for_status()] of the requests library: an [HTTPError] for a
    status from 400 to 599, nothing otherwise. *)
Definition raise_for_status (resp : Response) : M unit :=
  if (400 <=? status_code resp) && (status_code resp <? 600)
  then raise (HTTPError resp)
  else ret tt.

(** [resp.json()] *)
Definition resp_json (resp : Response) : result json :=
  match json_body resp with
  | Some v => Ok v
  | None => Raise JSONDecodeError
  end.

(** [v[k]] for a string key [k]. *)
Definition getitem (v : json) (k : string) : result json :=
  match v with
  | JObj m =>
      match m !! k with
      | Some x => Ok x
      | None => Raise (KeyError k)
      end
  | _ => Raise TypeError
  end.

Definition check_limits (response : Response) : M unit :=
  do rpm <- lift (py_int (headers_get response "x-ratelimit-remaining" 0));
  do rph <- lift (py_int (headers_get response "x-ratelimit-remaining-hour" 0));
  do _ <- print (LLimits rpm rph);
  do _ <- (if rpm <? 10
           then do _ <- print LRpmWarning; sleep 60
           else ret tt);
  if rph <? 10
  then do _ <- print LRphWarning; sleep 3600
  else ret tt.

(** [range(a, b)] *)
Definition range (a b : Z) : list Z := seqZ a (b - a).

(** [len(l)] *)
Definition len {A} (l : list A) : Z := Z.of_nat (length l).

(** Lines 134 to 143 of [main]: title, cookie lookup and payload. *)
Definition build_payload (cookies_map : gmap string json) (idx : Z)
    (proxy : gmap string string) : Payload :=
  let title := "BatchProfile_" +:+ pretty idx in
  let cookies := default JNull (cookies_map !! pretty (idx - 1)) in
  {| title := title;
     proxy := proxy;
     fingerprint := DEFAULT_FP;
     cookies := if truthy cookies then Some cookies else None |}.

Section Script.

(** The remote service and the network: the outcome of [requests.post] for
    a URL and a body, given everything the run did before (the token header
    and the timeout are the same for every call). *)
Variable requests_post : list event → string → Payload → post_result.

Definition post (url : string) (payload : Payload) : M Response := λ h,
  ([EPost url payload],
   match requests_post h url payload with
   | PostRaises e => Raise (RequestException e)
   | PostResponse r => Ok r
   end).

Definition api_post (endpoint : string) (payload : Payload) : M json :=
  let url := API_BASE +:+ "/" +:+ Py.lstrip "/" endpoint in
  do resp <- post url payload;
  do _ <- raise_for_status resp;
  do _ <- check_limits resp;
  do body <- lift (resp_json resp);
  lift (getitem body "data").

(** [next(proxy_cycle)] *)
Definition next_proxy (proxy_cycle : Itertools.cycle_state (gmap string string))
  : M (gmap string string * Itertools.cycle_state (gmap string string)) :=
  match Itertools.next proxy_cycle with
  | (Some p, c) => ret (p, c)
  | (None, _) => raise StopIteration
  end.

(** One iteration of the [for] loop of [main]. *)
Definition loop_body (cookies_map : gmap string json) (idx : Z)
    (proxy_cycle : Itertools.cycle_state (gmap string string))
  : M (Itertools.cycle_state (gmap string string)) :=
  do '(proxy, proxy_cycle) <- next_proxy proxy_cycle;
  let payload := build_payload cookies_map idx proxy in
  do _ <- try_except_HTTPError
            (do data <- api_post "profiles" payload;
             do uuid <- lift (getitem data "uuid");
             print (LCreated idx uuid))
            (λ e,
               do _ <- print (LHttpError idx e);
               print (LServerResponse (text e)));
  ret proxy_cycle.

(** The [for idx in ...] loop; returns the iterator as the loop leaves it. *)
Fixpoint main_loop (cookies_map : gmap string json) (idxs : list Z)
    (proxy_cycle : Itertools.cycle_state (gmap string string))
  : M (Itertools.cycle_state (gmap string string)) :=
  match idxs with
  | [] => ret proxy_cycle
  | idx :: rest =>
      do proxy_cycle <- loop_body cookies_map idx proxy_cycle;
      main_loop cookies_map rest proxy_cycle
  end.

Variable PROFILE_COUNT : Z.
Variable PROXY_CSV : proxy_source.
Variable COOKIE_JSON : cookie_source.

(** Number of iterations: the override when positive, else one per proxy. *)
Definition total_of (proxies : list (gmap string string)) : Z :=
  if 0 <? PROFILE_COUNT then PROFILE_COUNT else len proxies.

Definition main : M unit :=
  do proxies <- lift (load_proxies PROXY_CSV);
  do cookies_map <- lift (load_cookies COOKIE_JSON);
  let total := total_of proxies in
  let proxy_cycle := Itertools.cycle proxies in
  do _ <- main_loop cookies_map (range 1 (total + 1)) proxy_cycle;
  ret tt.

End Script.

(** A run of the script from an empty history. *)
Definition run (requests_post : list event → string → Payload → post_result)
    (PROFILE_COUNT : Z) (PROXY_CSV : proxy_source) (COOKIE_JSON : cookie_source)
  : list event * result unit :=
  main requests_post PROFILE_COUNT PROXY_CSV COOKIE_JSON [].

(** ** Auxiliary definitions for statements and proofs *)

(** The number [check_limits] takes from a header: 0 when the header is
    absent, [int] of its value otherwise ([None] when [int] raises). *)
Definition header_count (response : Response) (key : string) : option Z :=
  match headers response !! key with
  | None => Some 0
  | Some v => Py.int_of_str v
  end.

(** What [check_limits] does once both counts are read. *)
Definition limit_events (rpm rph : Z) : list event :=
  [EPrint (LLimits rpm rph)]
    ++ (if rpm <? 10 then [EPrint LRpmWarning; ESleep 60] else [])
    ++ (if rph <? 10 then [EPrint LRphWarning; ESleep 3600] else []).

(** The iterator [itertools.cycle(ps)] after [j] calls of [next]. *)
Definition cycle_after {A} (ps : list A) (j : nat) : Itertools.cycle_state A :=
  Nat.iter j (λ c, (Itertools.next c).2) (Itertools.cycle ps).

(** The same iterator in closed form. *)
Definition cycle_at {A} (ps : list A) (j : nat) : Itertools.cycle_state A :=
  if bool_decide (j ≤ length ps)%nat
  then {| Itertools.it := Some (drop j ps);
          Itertools.saved := take j ps;
          Itertools.index := 0 |}
  else {| Itertools.it := None;
          Itertools.saved := ps;
          Itertools.index := j mod length ps |}.

(** The request of iteration [i] as the specification words it: the proxy
    at position [(i - 1) mod P]. *)
Definition spec_request (proxies : list (gmap string string))
    (cookies_map : gmap string json) (i : Z) : Payload :=
  build_payload cookies_map i
    (default ∅ (proxies !! Z.to_nat ((i - 1) mod len proxies))).

(** The URL [api_post] builds for the endpoint of [main]. *)
Definition profiles_url : string :=
  API_BASE +:+ "/" +:+ Py.lstrip "/" "profiles".

(** The test of [raise_for_status]. *)
Definition is_http_error (r : Response) : bool :=
  (400 <=? status_code r) && (status_code r <? 600).

(** What an iteration of the loop does after its request, by the outcome of
    the request: the rest of [api_post], the success line, and the handler
    of the [except] clause ([loop_body_eq] below ties it to [loop_body]). *)
Definition after_reply (idx : Z) (reply : post_result) (h : list event)
  : list event * result unit :=
  match reply with
  | PostRaises e => ([], Raise (RequestException e))
  | PostResponse r =>
      if is_http_error r
      then ([EPrint (LHttpError idx r); EPrint (LServerResponse (text r))],
            Ok tt)
      else
        match check_limits r h with
        | (evs, Raise e) => (evs, Raise e)
        | (evs, Ok _) =>
            match resp_json r with
            | Raise e => (evs, Raise e)
            | Ok body =>
                match getitem body "data" with
                | Raise e => (evs, Raise e)
                | Ok data =>
                    match getitem data "uuid" with
                    | Raise e => (evs, Raise e)
                    | Ok uuid => (evs ++ [EPrint (LCreated idx uuid)], Ok tt)
                    end
                end
            end
        end
  end.

(** Whether the iteration that gets [reply] ends without an exception:
    an error status (handled by the [except] clause), or a reply whose
    rate-limit headers are read and whose body holds [data] and [uuid]. *)
Definition reply_handled (reply : post_result) : bool :=
  match reply with
  | PostRaises _ => false
  | PostResponse r =>
      is_http_error r
      || (bool_decide (is_Some (header_count r "x-ratelimit-remaining"))
          && bool_decide (is_Some (header_count r "x-ratelimit-remaining-hour"))
          && match json_body r with
             | Some (JObj body) =>
                 match body !! "data" with
                 | Some (JObj data) => bool_decide (is_Some (data !! "uuid"))
                 | _ => false
                 end
             | _ => false
             end)
  end.

(** ** Sample inputs *)

Definition demo_rows : list csv_row :=
  [ {| fields := [("host", Some "10.0.0.1"); ("port", Some "8080")];
       surplus := [] |};
    {| fields := [("host", Some "10.0.0.2"); (" port ", Some " 3128 ")];
       surplus := [] |} ].

Definition demo_proxies : list (gmap string string) :=
  [ {[ "host" := "10.0.0.1"; "port" := "8080" ]};
    {[ "host" := "10.0.0.2"; "port" := "3128" ]} ].

Definition demo_cookies : gmap string json :=
  {[ "0" := JArr [JObj {[ "name" := JStr "sid" ]}]; "1" := JArr [] ]}.

(** A reply announcing the created profile. *)
Definition created (rpm : string) : Response :=
  {| status_code := 200;
     headers := {[ "x-ratelimit-remaining" := rpm;
                   "x-ratelimit-remaining-hour" := "500" ]};
     text := "";
     json_body := Some (JObj {[ "data" := JObj {[ "uuid" := JStr "u" ]} ]}) |}.

(** A reply with the given status, no rate-limit header and a body that is
    not JSON. *)
Definition plain_reply (status : Z) : Response :=
  {| status_code := status; headers := ∅; text := "sorry";
     json_body := None |}.

(** A service that gives the same outcome to every request. *)
Definition always (reply : post_result)
  : list event → string → Payload → post_result := λ _ _ _, reply.

(** A service that refuses the request number [n] (counting from 0) with
    status 429 and creates every other profile. *)
Definition refuse_nth (n : nat) : list event → string → Payload → post_result :=
  λ h _ _,
    if bool_decide (length (posts h) = n)
    then PostResponse (plain_reply 429)
    else PostResponse (created "50").

Definition demo_proxy_2 : gmap string string :=
  {[ "host" := "10.0.0.2"; "port" := "3128" ]}.

(** The trace of a first iteration that created its profile. *)
Definition demo_history : list event :=
  [EPost profiles_url
     (build_payload demo_cookies 1 {[ "host" := "10.0.0.1"; "port" := "8080" ]});
   EPrint (LLimits 50 500); EPrint (LCreated 1 (JStr "u"))].

(** A reply with status 300 that carries low rate-limit counts. *)
Definition multiple_choices : Response :=
  {| status_code := 300;
     headers := {[ "x-ratelimit-remaining" := "5";
                   "x-ratelimit-remaining-hour" := "500" ]};
     text := "";
     json_body := Some (JObj {[ "data" := JObj {[ "uuid" := JStr "u" ]} ]}) |}.

Definition demo_payload : Payload :=
  build_payload ∅ 1 {[ "host" := "10.0.0.1"; "port" := "8080" ]}.

(** ** Further definitions *)

(** First and last character of a string. *)
Definition head_char (s : string) : option ascii :=
  match s with
  | String c _ => Some c
  | EmptyString => None
  end.

Fixpoint last_char (s : string) : option ascii :=
  match s with
  | String c r =>
      match last_char r with
      | Some c' => Some c'
      | None => Some c
      end
  | EmptyString => None
  end.

(** A string without white space at either end. *)
Definition trimmed (s : string) : Prop :=
  (∀ c, head_char s = Some c → Py.isspace c = false)
  ∧ (∀ c, last_char s = Some c → Py.isspace c = false).

(** The dict comprehension of [load_proxies], started from the entries
    [acc] made so far. *)
Definition clean_into (acc : gmap string string)
    (l : list (string * option string)) : gmap string string :=
  foldl (λ p kv,
           match kv with
           | (k, Some v) =>
               if Py.str_truthy v && Py.str_truthy k
               then <[Py.strip k := Py.strip v]> p
               else p
           | (_, None) => p
           end) acc l.

(** A cell that passes the filter [if v and k] of the comprehension. *)
Definition kept_cell (l : list (string * option string)) (k0 v0 : string)
  : Prop :=
  (k0, Some v0) ∈ l ∧ k0 ≠ "" ∧ v0 ≠ "".

(** Exceptions that end the run from inside an iteration. *)
Definition iteration_failure (e : exn) : bool :=
  match e with
  | RequestException _ | ValueError | JSONDecodeError | TypeError => true
  | KeyError k => bool_decide (k = "data" ∨ k = "uuid")
  | _ => false
  end.

(** Sum of the pauses of a trace, in seconds. *)
Definition total_sleep (t : list event) : Z := foldr Z.add 0 (sleeps t).

(** A reply that reports success but whose [data] holds no [uuid]. *)
Definition created_without_uuid : Response :=
  {| status_code := 201;
     headers := {[ "x-ratelimit-remaining" := "50";
                   "x-ratelimit-remaining-hour" := "500" ]};
     text := "";
     json_body := Some (JObj {[ "data" := JObj ∅ ]}) |}.

(** ** Module-level configuration and entry point *)

Module Startup.

(** The globals set while the module is loaded.  [PROXY_CSV] and
    [COOKIE_JSON] are the paths [BASE_DIR / name], given by [name]. *)
Record settings := {
  TOKEN : string;
  HEADERS : gmap string string;
  PROXY_CSV : string;
  COOKIE_JSON : string;
  PROFILE_COUNT : Z
}.

(** How loading the module can end before [main] is called:
    [sys.exit] for the token, or the [ValueError] of [int]. *)
Inductive failure := NoToken | CountNotInt.

(** [os.getenv(name, fallback)], on the environment as [load_dotenv()]
    leaves it. *)
Definition getenv (environ : gmap string string) (name fallback : string)
  : string :=
  default fallback (environ !! name).

(** Lines 30 to 40. *)
Definition configure (environ : gmap string string) : failure + settings :=
  let token := getenv environ "OCTO_API_TOKEN" "" in
  if negb (Py.str_truthy token) then inl NoToken
  else
    let headers := {[ "X-Octo-Api-Token" := token ]} in
    let proxy_csv := getenv environ "PROXY_FILE" "proxies.csv" in
    let cookie_json := getenv environ "COOKIE_FILE" "cookies.json" in
    match py_int (inl (getenv environ "PROFILE_COUNT" "0")) with
    | Ok count =>
        inr {| TOKEN := token; HEADERS := headers; PROXY_CSV := proxy_csv;
               COOKIE_JSON := cookie_json; PROFILE_COUNT := count |}
    | Raise _ => inl CountNotInt
    end.

(** The script run as a program: the module is loaded, then [main()] is
    called.  [proxy_at] and [cookie_at] tell what the loaders find at a
    path, [network] what [requests.post] gives when it sends the given
    headers. *)
Definition script (environ : gmap string string)
    (proxy_at : string → proxy_source) (cookie_at : string → cookie_source)
    (network : gmap string string →
               list event → string → Payload → post_result)
  : list event * (failure + result unit) :=
  match configure environ with
  | inl f => ([], inl f)
  | inr s =>
      let out := run (network (HEADERS s)) (PROFILE_COUNT s)
                   (proxy_at (PROXY_CSV s)) (cookie_at (COOKIE_JSON s)) in
      (out.1, inr out.2)
  end.

End Startup.

(** ** Rows as [csv.DictReader] builds them

    The reader belongs to the library; this is its [__next__] over the
    records that [csv.reader] has split with the sniffed dialect. *)

Module Csv.

(** [d[k] = v] on a dict held as the list of its items in insertion order:
    a key that is present keeps its place and takes the new value, a new
    key goes last. *)
Fixpoint setitem {V} (k : string) (v : V) (d : list (string * V))
  : list (string * V) :=
  match d with
  | [] => [(k, v)]
  | (k', v') :: d' =>
      if decide (k' = k) then (k, v) :: d' else (k', v') :: setitem k v d'
  end.

(** [dict(zip(fieldnames, row))] *)
Definition dict_zip (fieldnames row : list string)
  : list (string * option string) :=
  foldl (λ d kv, setitem kv.1 (Some kv.2) d) [] (zip fieldnames row).

(** The dict that [DictReader.__next__] makes of a record [row] under the
    header [fieldnames], with [restkey] and [restval] both [None]. *)
Definition DictReader_row (fieldnames row : list string) : csv_row :=
  let d := dict_zip fieldnames row in
  let lf := length fieldnames in
  let lr := length row in
  if bool_decide (lf < lr)%nat
  then {| fields := d; surplus := drop lf row |}
  else if bool_decide (lr < lf)%nat
  then {| fields := foldl (λ d key, setitem key None d) d (drop lr fieldnames);
          surplus := [] |}
  else {| fields := d; surplus := [] |}.

(** The rows of [csv.DictReader] over the records of [csv.reader]: the first
    record gives the field names and an empty record, which is what a blank
    line gives, is skipped. *)
Definition DictReader (records : list (list string)) : list csv_row :=
  match records with
  | [] => []
  | fieldnames :: rows =>
      DictReader_row fieldnames <$> filter (λ row, row ≠ []) rows
  end.

End Csv.

(** A row whose items have pairwise different names, as the items of a dict
    have. *)
Definition distinct_names (row : csv_row) : Prop := NoDup (fields row).*1.

(** The columns of a record under the header: every field name with the cell
    below it, [None] where the record is shorter than the header. *)
Fixpoint columns (fieldnames row : list string)
  : list (string * option string) :=
  match fieldnames with
  | [] => []
  | k :: ks => (k, head row) :: columns ks (tail row)
  end.

(** The cell of the last column named [k]. *)
Definition last_cell (k : string) (cols : list (string * option string))
  : option (option string) :=
  snd <$> last (filter (λ c, c.1 = k) cols).

(** ** Further sample inputs *)

(** A reply with both counts low. *)
Definition low_counts : Response :=
  {| status_code := 200;
     headers := {[ "x-ratelimit-remaining" := "5";
                   "x-ratelimit-remaining-hour" := "3" ]};
     text := "";
     json_body := None |}.

(** A reply with a low per-minute count and a per-hour header that is no
    integer literal. *)
Definition low_minute_bad_hour : Response :=
  {| status_code := 200;
     headers := {[ "x-ratelimit-remaining" := "5";
                   "x-ratelimit-remaining-hour" := "abc" ]};
     text := "";
     json_body := None |}.

(** A row whose port cell holds two spaces. *)
Definition blank_port_row : csv_row :=
  {| fields := [(" port", Some "  "); ("host", Some "10.0.0.1")];
     surplus := [] |}.

(** A row with two port columns whose names differ by white space. *)
Definition padded_port_row : csv_row :=
  {| fields := [("port", Some "80"); (" port ", Some "8080");
                ("host", Some "h")];
     surplus := [] |}.

(** * Properties *)

(** ** The primitives on sample values *)

Example int_of_str_samples :
  Py.int_of_str " 12 " = Some 12
  ∧ Py.int_of_str "-3" = Some (-3)
  ∧ Py.int_of_str "1_000" = Some 1000
  ∧ Py.int_of_str "1__0" = None
  ∧ Py.int_of_str "5.0" = None
  ∧ Py.int_of_str "" = None.
Proof. vm_compute. done. Qed.

Example strip_sample : Py.strip "  port " = "port".
Proof. reflexivity. Qed.

Example profiles_url_value :
  profiles_url = "https://app.octobrowser.net/api/v2/automation/profiles".
Proof. reflexivity. Qed.

(** ** Computations *)

Lemma bind_ret_l {A B} (a : A) (k : A → M B) h : bind (ret a) k h = k a h.
Proof. unfold bind, ret. rewrite app_nil_r. by destruct (k a h). Qed.

Lemma bind_assoc {A B C} (m : M A) (f : A → M B) (g : B → M C) h :
  bind (bind m f) g h = bind m (λ a, bind (f a) g) h.
Proof.
  unfold bind. destruct (m h) as [ev1 [a|e]]; [|done].
  destruct (f a (h ++ ev1)) as [ev2 [b|e]]; [|done].
  rewrite <- app_assoc. destruct (g b (h ++ ev1 ++ ev2)) as [ev3 r].
  by rewrite <- app_assoc.
Qed.

Lemma bind_ext {A B} (m : M A) (f g : A → M B) h :
  (∀ a h', f a h' = g a h') → bind m f h = bind m g h.
Proof.
  intros Hfg. unfold bind. destruct (m h) as [ev1 [a|e]]; [|done].
  by rewrite Hfg.
Qed.

(** ** Rate-limit check *)

Lemma lower_minute_key :
  Py.lower "x-ratelimit-remaining" = "x-ratelimit-remaining".
Proof. reflexivity. Qed.

Lemma lower_hour_key :
  Py.lower "x-ratelimit-remaining-hour" = "x-ratelimit-remaining-hour".
Proof. reflexivity. Qed.

Lemma py_int_headers_get response key :
  Py.lower key = key →
  py_int (headers_get response key 0) =
    match header_count response key with
    | Some z => Ok z
    | None => Raise ValueError
    end.
Proof.
  intros Hkey. unfold headers_get, header_count. rewrite Hkey.
  destruct (headers response !! key) as [v|]; simpl; [|done].
  by destruct (Py.int_of_str v).
Qed.

Lemma check_limits_parsed response rpm rph h :
  header_count response "x-ratelimit-remaining" = Some rpm →
  header_count response "x-ratelimit-remaining-hour" = Some rph →
  check_limits response h = (limit_events rpm rph, Ok tt).
Proof.
  intros Hm Hh. unfold check_limits, bind, lift, limit_events.
  rewrite !py_int_headers_get, Hm, Hh by reflexivity.
  destruct (rpm <? 10), (rph <? 10); reflexivity.
Qed.

Lemma check_limits_unparsed response h :
  header_count response "x-ratelimit-remaining" = None
  ∨ header_count response "x-ratelimit-remaining-hour" = None →
  check_limits response h = ([], Raise ValueError).
Proof.
  intros Hnone. unfold check_limits, bind, lift.
  rewrite !py_int_headers_get by reflexivity.
  destruct (header_count response "x-ratelimit-remaining") as [rpm|]; [|done].
  destruct Hnone as [?| ->]; done.
Qed.

(** ** The proxy iterator *)

Lemma succ_mod (j p : nat) :
  (0 < p)%nat →
  (S j mod p = if bool_decide (p ≤ S (j mod p)) then 0 else S (j mod p))%nat.
Proof.
  intros Hp.
  pose proof (Nat.mod_upper_bound j p ltac:(lia)) as Hlt.
  pose proof (Nat.div_mod_eq j p) as Hj.
  case_bool_decide as Hcase.
  - symmetry. apply (Nat.mod_unique _ _ (S (j / p))); lia.
  - symmetry. apply (Nat.mod_unique _ _ (j / p)); lia.
Qed.

Lemma next_cycle_at {A} (ps : list A) (j : nat) :
  ps ≠ [] →
  Itertools.next (cycle_at ps j) =
    (ps !! (j mod length ps)%nat, cycle_at ps (S j)).
Proof.
  intros Hne.
  assert (0 < length ps)%nat as Hlen by (destruct ps; simpl; [done|lia]).
  destruct (lt_eq_lt_dec j (length ps)) as [[Hlt| ->]|Hgt].
  - destruct (lookup_lt_is_Some_2 ps j Hlt) as [x Hx].
    unfold cycle_at, Itertools.next.
    rewrite (bool_decide_true (j ≤ _)%nat),
      (bool_decide_true (S j ≤ _)%nat) by lia.
    simpl.
    rewrite (drop_S _ _ _ Hx), Nat.mod_small, Hx by done.
    by rewrite (take_S_r _ _ _ Hx).
  - unfold cycle_at, Itertools.next, Itertools.replay.
    rewrite (bool_decide_true (_ ≤ _)%nat),
      (bool_decide_false (S _ ≤ _)%nat) by lia.
    simpl.
    rewrite drop_all, firstn_all, (succ_mod _ _ Hlen), Nat.Div0.mod_same.
    destruct (lookup_lt_is_Some_2 ps 0%nat Hlen) as [x Hx].
    by rewrite Hx.
  - unfold cycle_at, Itertools.next, Itertools.replay.
    rewrite (bool_decide_false (j ≤ _)%nat),
      (bool_decide_false (S j ≤ _)%nat) by lia.
    simpl.
    pose proof (Nat.mod_upper_bound j (length ps) ltac:(lia)) as Hm.
    destruct (lookup_lt_is_Some_2 ps _ Hm) as [x Hx].
    rewrite Hx. by rewrite (succ_mod _ _ Hlen).
Qed.

Lemma cycle_after_at {A} (ps : list A) (j : nat) :
  ps ≠ [] → cycle_after ps j = cycle_at ps j.
Proof.
  intros Hne. induction j as [|j IH]; [done|].
  unfold cycle_after in *. simpl. rewrite IH.
  by rewrite next_cycle_at.
Qed.

Lemma next_cycle_after {A} (ps : list A) (j : nat) :
  ps ≠ [] →
  Itertools.next (cycle_after ps j) =
    (ps !! (j mod length ps)%nat, cycle_after ps (S j)).
Proof.
  intros Hne. rewrite !cycle_after_at by done. by apply next_cycle_at.
Qed.

(** ** The loop *)

Arguments limit_events : simpl never.
Arguments cycle_after : simpl never.

Lemma resp_json_raises r e : resp_json r = Raise e → e = JSONDecodeError.
Proof. unfold resp_json. destruct (json_body r); naive_solver. Qed.

Lemma getitem_raises v k e :
  getitem v k = Raise e → e = KeyError k ∨ e = TypeError.
Proof.
  unfold getitem. destruct v as [| | | | | |m]; try naive_solver.
  destruct (m !! k); naive_solver.
Qed.

Section LoopFacts.
Variable requests_post : list event → string → Payload → post_result.

Lemma check_limits_cases response h :
  (∃ rpm rph, check_limits response h = (limit_events rpm rph, Ok tt))
  ∨ check_limits response h = ([], Raise ValueError).
Proof.
  destruct (header_count response "x-ratelimit-remaining") as [rpm|] eqn:Hm;
    [|right; apply check_limits_unparsed; by left].
  destruct (header_count response "x-ratelimit-remaining-hour") as [rph|]
    eqn:Hh; [|right; apply check_limits_unparsed; by right].
  left. exists rpm, rph. by apply check_limits_parsed.
Qed.

Lemma posts_limit_events rpm rph : posts (limit_events rpm rph) = [].
Proof. unfold limit_events. by destruct (rpm <? 10), (rph <? 10). Qed.

Lemma posts_app t1 t2 : posts (t1 ++ t2) = posts t1 ++ posts t2.
Proof. apply omap_app. Qed.

Lemma loop_body_eq cookies_map idx c c' proxy h :
  Itertools.next c = (Some proxy, c') →
  loop_body requests_post cookies_map idx c h =
    let payload := build_payload cookies_map idx proxy in
    let out := after_reply idx (requests_post h profiles_url payload)
                 (h ++ [EPost profiles_url payload]) in
    (EPost profiles_url payload :: out.1,
     match out.2 with Ok _ => Ok c' | Raise e => Raise e end).
Proof.
  intros Hnext.
  unfold loop_body, next_proxy, try_except_HTTPError, api_post, post,
    raise_for_status, after_reply, print, emit, lift, ret, raise, bind.
  rewrite Hnext. simpl. rewrite app_nil_r.
  change (API_BASE +:+ "/" +:+ Py.lstrip "/" "profiles") with profiles_url.
  set (payload := build_payload cookies_map idx proxy).
  destruct (requests_post h profiles_url payload) as [e|r]; simpl; [done|].
  unfold is_http_error.
  destruct ((400 <=? status_code r) && (status_code r <? 600)); simpl; [done|].
  rewrite !app_nil_r.
  destruct (check_limits_cases r (h ++ [EPost profiles_url payload]))
    as [(rpm & rph & ->)| ->]; simpl; [|done].
  destruct (resp_json r) as [body|e] eqn:Hbody; simpl;
    [|apply resp_json_raises in Hbody as ->; by rewrite ?app_nil_r].
  destruct (getitem body "data") as [data|e] eqn:Hdata; simpl;
    [|apply getitem_raises in Hdata as [->| ->]; by rewrite ?app_nil_r].
  destruct (getitem data "uuid") as [uuid|e] eqn:Huuid; simpl;
    [|apply getitem_raises in Huuid as [->| ->]; by rewrite ?app_nil_r].
  by rewrite !app_nil_r.
Qed.

Lemma posts_after_reply idx reply h : posts (after_reply idx reply h).1 = [].
Proof.
  unfold after_reply. destruct reply as [e|r]; [done|].
  destruct (is_http_error r); [done|].
  destruct (check_limits_cases r h) as [(rpm & rph & ->)| ->]; [|done].
  destruct (resp_json r) as [body|]; [|by apply posts_limit_events].
  destruct (getitem body "data") as [data|]; [|by apply posts_limit_events].
  destruct (getitem data "uuid"); [|by apply posts_limit_events].
  cbn [fst]. by rewrite posts_app, posts_limit_events.
Qed.

Lemma loop_body_at cookies_map ps (j : nat) h :
  ps ≠ [] →
  loop_body requests_post cookies_map (Z.of_nat j + 1) (cycle_after ps j) h =
    let payload := spec_request ps cookies_map (Z.of_nat j + 1) in
    let out := after_reply (Z.of_nat j + 1)
                 (requests_post h profiles_url payload)
                 (h ++ [EPost profiles_url payload]) in
    (EPost profiles_url payload :: out.1,
     match out.2 with
     | Ok _ => Ok (cycle_after ps (S j))
     | Raise e => Raise e
     end).
Proof.
  intros Hne.
  assert (0 < length ps)%nat as Hlen by (destruct ps; simpl; [done|lia]).
  pose proof (Nat.mod_upper_bound j (length ps) ltac:(lia)) as Hm.
  destruct (lookup_lt_is_Some_2 ps _ Hm) as [proxy Hproxy].
  rewrite (loop_body_eq _ _ _ (cycle_after ps (S j)) proxy)
    by (by rewrite next_cycle_after, Hproxy).
  unfold spec_request, len.
  replace (Z.of_nat j + 1 - 1) with (Z.of_nat j) by lia.
  by rewrite <- Nat2Z.inj_mod, Nat2Z.id, Hproxy.
Qed.

Lemma main_loop_app cookies_map l1 l2 c h :
  main_loop requests_post cookies_map (l1 ++ l2) c h =
    bind (main_loop requests_post cookies_map l1 c)
         (main_loop requests_post cookies_map l2) h.
Proof.
  revert c h. induction l1 as [|idx l1 IH]; intros c h; simpl.
  - by rewrite bind_ret_l.
  - rewrite bind_assoc. apply bind_ext. intros c' h'. apply IH.
Qed.

Lemma main_loop_posts cookies_map ps (n j : nat) h :
  ps ≠ [] →
  ∃ k : nat,
    (k ≤ n)%nat
    ∧ posts (main_loop requests_post cookies_map
               (seqZ (Z.of_nat j + 1) (Z.of_nat n)) (cycle_after ps j) h).1
      = spec_request ps cookies_map <$> seqZ (Z.of_nat j + 1) (Z.of_nat k)
    ∧ ∀ c, (main_loop requests_post cookies_map
              (seqZ (Z.of_nat j + 1) (Z.of_nat n)) (cycle_after ps j) h).2
           = Ok c → k = n ∧ c = cycle_after ps (j + n).
Proof.
  intros Hne. revert j h. induction n as [|n IH]; intros j h.
  - exists 0%nat. simpl. rewrite Nat.add_0_r. naive_solver.
  - rewrite seqZ_cons by lia. simpl.
    replace (Z.pred (Z.of_nat (S n))) with (Z.of_nat n) by lia.
    replace (Z.succ (Z.of_nat j + 1)) with (Z.of_nat (S j) + 1) by lia.
    unfold bind. rewrite loop_body_at by done. simpl.
    set (payload := spec_request ps cookies_map (Z.of_nat j + 1)).
    pose proof (posts_after_reply (Z.of_nat j + 1)
                  (requests_post h profiles_url payload)
                  (h ++ [EPost profiles_url payload])) as Hnone.
    destruct (after_reply _ _ _) as [evs [[]|e]]; simpl in *.
    + destruct (IH (S j) (h ++ EPost profiles_url payload :: evs))
        as (k & Hk & Hposts & Hok).
      destruct (main_loop _ _ _ _ _) as [evs' r]. simpl in *.
      exists (S k). split; [lia|]. split.
      * rewrite posts_app, Hnone, Hposts. simpl.
        rewrite (seqZ_cons _ (Z.of_nat (S k))) by lia. simpl.
        do 3 f_equal; lia.
      * intros c ->. destruct (Hok c eq_refl) as [-> ->].
        split; [done|]. f_equal. lia.
    + exists 1%nat. split; [lia|]. split; [|done].
      by rewrite Hnone.
Qed.

End LoopFacts.

Lemma after_reply_handled idx reply h :
  reply_handled reply = true ↔ (after_reply idx reply h).2 = Ok tt.
Proof.
  unfold reply_handled, after_reply. destruct reply as [e|r]; [done|].
  destruct (is_http_error r); [done|].
  destruct (header_count r "x-ratelimit-remaining") as [rpm|] eqn:Hm.
  - destruct (header_count r "x-ratelimit-remaining-hour") as [rph|] eqn:Hh.
    + rewrite (check_limits_parsed r rpm rph) by done.
      unfold resp_json, getitem.
      destruct (json_body r) as [[| | | | | |body]|]; try done.
      destruct (body !! "data") as [[| | | | | |data]|]; try done.
      by destruct (data !! "uuid").
    + by rewrite check_limits_unparsed by (by right).
  - by rewrite check_limits_unparsed by (by left).
Qed.

Lemma after_reply_not_http_error idx reply h e r :
  (after_reply idx reply h).2 = Raise e → e ≠ HTTPError r.
Proof.
  unfold after_reply. destruct reply as [e'|r']; simpl; [naive_solver|].
  destruct (is_http_error r'); [done|].
  destruct (check_limits_cases r' h) as [(rpm & rph & ->)| ->];
    [|naive_solver].
  destruct (resp_json r') as [body|e'] eqn:Hbody; simpl.
  - destruct (getitem body "data") as [data|e'] eqn:Hdata; simpl.
    + destruct (getitem data "uuid") as [uuid|e'] eqn:Huuid; simpl; [done|].
      destruct (getitem_raises _ _ _ Huuid); naive_solver.
    + destruct (getitem_raises _ _ _ Hdata); naive_solver.
  - pose proof (resp_json_raises _ _ Hbody). naive_solver.
Qed.

(** *** Loading *)

Lemma load_rows_ok rows acc ps :
  load_rows rows acc = Ok ps ↔
  ∃ ps', ps = acc ++ ps' ∧ Forall2 (λ row p, load_row row = Ok p) rows ps'.
Proof.
  revert acc. induction rows as [|row rows IH]; intros acc; simpl.
  - split.
    + intros [= ->]. exists []. by rewrite app_nil_r.
    + intros (ps' & -> & Hall). apply Forall2_nil_inv_l in Hall as ->.
      by rewrite app_nil_r.
  - destruct (load_row row) as [p|e] eqn:Hrow.
    + rewrite IH. split.
      * intros (ps' & -> & Hall). exists (p :: ps').
        rewrite <- app_assoc. split; [done|]. by apply Forall2_cons.
      * intros (ps' & -> & Hall).
        apply Forall2_cons_inv_l in Hall as (p' & ps'' & Hp & Hall & ->).
        assert (p' = p) as -> by congruence.
        exists ps''. by rewrite <- app_assoc.
    + split; [done|]. intros (ps' & -> & Hall).
      apply Forall2_cons_inv_l in Hall as (p' & ps'' & Hp & Hall & ->).
      congruence.
Qed.

Lemma load_proxies_ok path ps :
  load_proxies path = Ok ps ↔
  ps ≠ [] ∧ ∃ rows, path = ProxyRows rows
                    ∧ Forall2 (λ row p, load_row row = Ok p) rows ps.
Proof.
  unfold load_proxies. destruct path as [| |rows].
  - split; [done|]. by intros (_ & rows & ? & _).
  - split; [done|]. by intros (_ & rows & ? & _).
  - destruct (load_rows rows []) as [ps'|e] eqn:Hrows.
    + apply load_rows_ok in Hrows as (ps'' & -> & Hall). simpl. split.
      * destruct ps'' as [|p ps'']; [done|]. intros [= <-]. eauto.
      * intros (Hne & rows' & [= <-] & Hall').
        assert (load_rows rows [] = Ok ps) as Hps
          by (apply load_rows_ok; eauto).
        assert (load_rows rows [] = Ok ps'') as Hps''
          by (apply load_rows_ok; eauto).
        assert (ps'' = ps) as -> by congruence.
        by destruct ps.
    + split; [done|]. intros (Hne & rows' & [= <-] & Hall).
      assert (load_rows rows [] = Ok ps) as Hok
        by (apply load_rows_ok; eauto).
      congruence.
Qed.

Lemma length_pos_nonempty {A} (l : list A) : l ≠ [] → 0 < len l.
Proof. unfold len. destruct l; simpl; [done|lia]. Qed.

Lemma total_of_pos count ps : ps ≠ [] → 0 < total_of count ps.
Proof.
  intros Hne. unfold total_of.
  destruct (0 <? count) eqn:Hc; [lia|by apply length_pos_nonempty].
Qed.

Lemma range_from_1 (t : Z) :
  0 ≤ t → range 1 (t + 1) = seqZ (Z.of_nat 0 + 1) (Z.of_nat (Z.to_nat t)).
Proof. intros Ht. unfold range. f_equal; lia. Qed.

Lemma cycle_after_0 {A} (ps : list A) : cycle_after ps 0 = Itertools.cycle ps.
Proof. done. Qed.

Lemma run_eq requests_post count path cpath ps cm :
  load_proxies path = Ok ps →
  load_cookies cpath = Ok cm →
  run requests_post count path cpath =
    ((main_loop requests_post cm (range 1 (total_of count ps + 1))
        (Itertools.cycle ps) []).1,
     match (main_loop requests_post cm (range 1 (total_of count ps + 1))
              (Itertools.cycle ps) []).2 with
     | Ok _ => Ok tt
     | Raise e => Raise e
     end).
Proof.
  intros Hps Hcm. unfold run, main, bind, lift, ret. rewrite Hps, Hcm. simpl.
  destruct (main_loop _ _ _ _ _) as [evs [c|e]]; simpl; [|done].
  by rewrite app_nil_r.
Qed.

Lemma run_posts requests_post count path cpath ps cm :
  load_proxies path = Ok ps →
  load_cookies cpath = Ok cm →
  ∃ k : nat,
    (k ≤ Z.to_nat (total_of count ps))%nat
    ∧ posts (run requests_post count path cpath).1
      = spec_request ps cm <$> seqZ 1 (Z.of_nat k)
    ∧ ((run requests_post count path cpath).2 = Ok tt →
       k = Z.to_nat (total_of count ps)).
Proof.
  intros Hps Hcm. rewrite (run_eq _ _ _ _ ps cm) by done.
  assert (ps ≠ []) as Hne by (by apply load_proxies_ok in Hps as [? _]).
  pose proof (total_of_pos count ps Hne) as Hpos.
  rewrite range_from_1, <- cycle_after_0 by lia.
  destruct (main_loop_posts requests_post cm ps
              (Z.to_nat (total_of count ps)) 0 [] Hne) as (k & Hk & Hp & Hok).
  exists k. split; [done|]. split; [done|]. simpl.
  destruct (main_loop _ _ _ _ _) as [evs [c|e]]; simpl in *; [|done].
  intros _. by destruct (Hok c eq_refl).
Qed.

(** *** Requests of a run *)

Lemma spec_request_proxy ps cm i :
  ps ≠ [] →
  ps !! Z.to_nat ((i - 1) mod len ps) = Some (proxy (spec_request ps cm i)).
Proof.
  intros Hne. pose proof (length_pos_nonempty ps Hne) as Hlen.
  pose proof (Z.mod_pos_bound (i - 1) (len ps) Hlen) as Hm.
  destruct (lookup_lt_is_Some_2 ps (Z.to_nat ((i - 1) mod len ps)))
    as [p Hp]; [unfold len in *; lia|].
  unfold spec_request. by rewrite Hp.
Qed.

Lemma lookup_spec_requests ps cm (k n : nat) p :
  (spec_request ps cm <$> seqZ 1 (Z.of_nat k)) !! n = Some p →
  (n < k)%nat ∧ p = spec_request ps cm (Z.of_nat n + 1).
Proof.
  rewrite list_lookup_fmap. intros Hp.
  destruct (seqZ 1 (Z.of_nat k) !! n) as [i|] eqn:Hi; [|done].
  apply lookup_seqZ in Hi as [-> Hlt]. simpl in Hp. simplify_eq.
  split; [lia|]. f_equal. lia.
Qed.

Lemma proxies_of_spec_requests ps cm (k : nat) :
  (k ≤ length ps)%nat →
  proxy <$> (spec_request ps cm <$> seqZ 1 (Z.of_nat k)) = take k ps.
Proof.
  intros Hk. apply list_eq. intros n.
  rewrite !list_lookup_fmap.
  destruct (decide (n < k)%nat) as [Hn|Hn].
  - rewrite lookup_take_lt by done.
    rewrite (proj2 (lookup_seqZ 1 (Z.of_nat k) n (1 + Z.of_nat n)))
      by (split; [done|lia]).
    simpl. unfold spec_request, len.
    replace (1 + Z.of_nat n - 1) with (Z.of_nat n) by lia.
    rewrite Z.mod_small, Nat2Z.id by lia.
    destruct (lookup_lt_is_Some_2 ps n) as [p Hp]; [lia|].
    by rewrite Hp.
  - rewrite lookup_take_ge by lia.
    destruct (seqZ 1 (Z.of_nat k) !! n) as [i|] eqn:Hi; [|done].
    apply lookup_seqZ in Hi. lia.
Qed.

Section RunFacts.
Variable requests_post : list event → string → Payload → post_result.

Lemma main_loop_handled cm ps (n j : nat) h :
  ps ≠ [] →
  (∀ h' u p, reply_handled (requests_post h' u p) = true) →
  (main_loop requests_post cm (seqZ (Z.of_nat j + 1) (Z.of_nat n))
     (cycle_after ps j) h).2 = Ok (cycle_after ps (j + n)).
Proof.
  intros Hne Hall. revert j h. induction n as [|n IH]; intros j h.
  - simpl. by rewrite Nat.add_0_r.
  - rewrite seqZ_cons by lia. simpl.
    replace (Z.pred (Z.of_nat (S n))) with (Z.of_nat n) by lia.
    replace (Z.succ (Z.of_nat j + 1)) with (Z.of_nat (S j) + 1) by lia.
    unfold bind. rewrite loop_body_at by done. simpl.
    set (payload := spec_request ps cm (Z.of_nat j + 1)).
    pose proof (proj1 (after_reply_handled (Z.of_nat j + 1)
                  (requests_post h profiles_url payload)
                  (h ++ [EPost profiles_url payload])) (Hall _ _ _)) as Hok.
    destruct (after_reply _ _ _) as [evs r]. simpl in Hok. subst r. simpl.
    specialize (IH (S j) (h ++ EPost profiles_url payload :: evs)).
    revert IH. destruct (main_loop _ _ _ _ _) as [evs' r]. simpl.
    intros ->. by replace (j + S n)%nat with (S (j + n)) by lia.
Qed.

Lemma range_split (i t : Z) :
  1 ≤ i ≤ t → range 1 (t + 1) = range 1 i ++ i :: range (i + 1) (t + 1).
Proof.
  intros Hi. unfold range.
  replace (t + 1 - 1) with ((i - 1) + (t + 1 - i)) by lia.
  rewrite seqZ_app by lia. f_equal.
  rewrite seqZ_cons by lia. f_equal; [lia|]. f_equal; lia.
Qed.

Lemma main_loop_reaches cm ps i evs c :
  ps ≠ [] → 1 ≤ i →
  main_loop requests_post cm (range 1 i) (Itertools.cycle ps) [] = (evs, Ok c) →
  c = cycle_after ps (Z.to_nat (i - 1)).
Proof.
  intros Hne Hi Hloop.
  destruct (main_loop_posts requests_post cm ps (Z.to_nat (i - 1)) 0 [] Hne)
    as (k & _ & _ & Hok).
  unfold range in Hloop. rewrite cycle_after_0 in Hok.
  replace (Z.of_nat 0 + 1) with 1 in Hok by lia.
  rewrite Z2Nat.id, Hloop in Hok by lia.
  by destruct (Hok c eq_refl) as [_ ->].
Qed.

End RunFacts.

Example demo_load : load_proxies (ProxyRows demo_rows) = Ok demo_proxies.
Proof. vm_compute. reflexivity. Qed.

Lemma is_http_error_spec r :
  is_http_error r = true ↔ 400 ≤ status_code r < 600.
Proof. unfold is_http_error. rewrite andb_true_iff. lia. Qed.

Section IterationFacts.
Variable requests_post : list event → string → Payload → post_result.

(** The whole loop, cut at an iteration that has been reached. *)
Lemma main_loop_cut cm ps (i t : Z) evs c :
  1 ≤ i ≤ t →
  main_loop requests_post cm (range 1 i) (Itertools.cycle ps) [] = (evs, Ok c) →
  main_loop requests_post cm (range 1 (t + 1)) (Itertools.cycle ps) [] =
    match loop_body requests_post cm i c evs with
    | (evs_i, Ok c') =>
        (evs ++ evs_i
           ++ (main_loop requests_post cm (range (i + 1) (t + 1)) c'
                 (evs ++ evs_i)).1,
         (main_loop requests_post cm (range (i + 1) (t + 1)) c'
            (evs ++ evs_i)).2)
    | (evs_i, Raise e) => (evs ++ evs_i, Raise e)
    end.
Proof.
  intros Hi Hloop. rewrite (range_split i t), main_loop_app by done.
  unfold bind at 1. rewrite Hloop. simpl. unfold bind.
  destruct (loop_body requests_post cm i c evs) as [evs_i [c'|e]]; [|done].
  by destruct (main_loop requests_post cm (range (i + 1) (t + 1)) c'
                 (evs ++ evs_i)).
Qed.

Lemma loop_body_http_error cm i c c' proxy h r :
  Itertools.next c = (Some proxy, c') →
  requests_post h profiles_url (build_payload cm i proxy) = PostResponse r →
  is_http_error r = true →
  loop_body requests_post cm i c h =
    ([EPost profiles_url (build_payload cm i proxy);
      EPrint (LHttpError i r); EPrint (LServerResponse (text r))], Ok c').
Proof.
  intros Hnext Hreply Herr.
  rewrite (loop_body_eq _ _ _ _ c' proxy) by done. simpl.
  unfold after_reply. by rewrite Hreply, Herr.
Qed.

End IterationFacts.

Lemma range_cons (a b : Z) : a < b → range a b = a :: range (a + 1) b.
Proof.
  intros Hab. unfold range. rewrite seqZ_cons by lia.
  f_equal. f_equal; lia.
Qed.


Lemma build_payload_cookies cm i proxy c :
  cookies (build_payload cm i proxy) = Some c
  ↔ cm !! pretty (i - 1) = Some c ∧ truthy c = true.
Proof.
  unfold build_payload. simpl.
  destruct (cm !! pretty (i - 1)) as [v|]; simpl.
  - destruct (truthy v) eqn:Hv; split.
    + by intros [= ->].
    + by intros [[= ->] _].
    + done.
    + intros [[= ->] ?]. congruence.
  - split; [done|]. by intros [? _].
Qed.

Lemma build_payload_delete_falsy cm k v i proxy :
  cm !! k = Some v → truthy v = false →
  build_payload (delete k cm) i proxy = build_payload cm i proxy.
Proof.
  intros Hk Hv. unfold build_payload. f_equal.
  destruct (decide (k = pretty (i - 1))) as [->|Hne].
  - rewrite lookup_delete_eq, Hk. simpl. by rewrite Hv.
  - by rewrite lookup_delete_ne.
Qed.

Section CookieFacts.
Variable requests_post : list event → string → Payload → post_result.

Lemma loop_body_ext cm cm' idx c h :
  (∀ i proxy, build_payload cm i proxy = build_payload cm' i proxy) →
  loop_body requests_post cm idx c h = loop_body requests_post cm' idx c h.
Proof.
  intros Hext. unfold loop_body. apply bind_ext.
  intros [proxy c'] h'. by rewrite Hext.
Qed.

Lemma main_loop_ext cm cm' idxs c h :
  (∀ i proxy, build_payload cm i proxy = build_payload cm' i proxy) →
  main_loop requests_post cm idxs c h = main_loop requests_post cm' idxs c h.
Proof.
  intros Hext. revert c h. induction idxs as [|idx idxs IH]; intros c h.
  - done.
  - simpl. unfold bind. rewrite (loop_body_ext cm cm') by done.
    destruct (loop_body requests_post cm' idx c h) as [ev1 [c'|e]]; [|done].
    by rewrite IH.
Qed.

End CookieFacts.

(** A row is rejected only when no [port] entry is left after cleaning;
    the value of the entry is never inspected. *)
Lemma load_row_accepts_any_port row port :
  strip_row row !! "port" = Some port → load_row row = Ok (strip_row row).
Proof.
  intros Hport. unfold load_row, py_str. rewrite Hport.
  by rewrite insert_id.
Qed.

(** * Main results *)

(** ** Rate-limit check *)

(** C3, as the code has it: an absent header counts as 0 and a present one
    as [int] of its value; when both counts exist [check_limits] prints them
    and returns, and when the value of a present header is not an integer
    literal it raises [ValueError] before printing anything. *)
Theorem check_limits_reads_headers (response : Response) (h : list event) :
  match header_count response "x-ratelimit-remaining",
        header_count response "x-ratelimit-remaining-hour" with
  | Some rpm, Some rph =>
      ∃ evs, check_limits response h = (EPrint (LLimits rpm rph) :: evs, Ok tt)
  | _, _ => check_limits response h = ([], Raise ValueError)
  end.
Proof.
  destruct (header_count response "x-ratelimit-remaining") as [rpm|] eqn:Hm.
  - destruct (header_count response "x-ratelimit-remaining-hour")
      as [rph|] eqn:Hh.
    + rewrite (check_limits_parsed _ rpm rph) by done.
      unfold limit_events. eauto.
    + apply check_limits_unparsed. by right.
  - apply check_limits_unparsed. by left.
Qed.

(** C3, counterexample: a reply whose per-minute header holds [abc]; the
    value is no integer literal and [check_limits] raises instead of
    counting 0. *)
Lemma check_limits_unparsable_header_raises :
  let response :=
    {| status_code := 200;
       headers := {[ "x-ratelimit-remaining" := "abc" ]};
       text := "";
       json_body := None |} in
  headers_get response "x-ratelimit-remaining" 0 = inl "abc"
  ∧ Py.int_of_str "abc" = None
  ∧ check_limits response [] = ([], Raise ValueError).
Proof. vm_compute. done. Qed.

(** C7, as the code has it: when each of the two headers is absent or holds
    an integer literal, read as [rpm] and [rph], [check_limits] prints them,
    then pauses 60 seconds when [rpm < 10], then pauses 3600 seconds when
    [rph < 10]; each test is made whatever the other gave, so both pauses
    happen, in this order, when both counts are low. When [int] raises on
    either header, [check_limits] raises [ValueError] before the tests and
    there is no pause, however low the other count. *)
Theorem check_limits_pauses (response : Response) (h : list event) :
  (∀ rpm rph,
     py_int (headers_get response "x-ratelimit-remaining" 0) = Ok rpm →
     py_int (headers_get response "x-ratelimit-remaining-hour" 0) = Ok rph →
     check_limits response h =
       ([EPrint (LLimits rpm rph)]
          ++ (if rpm <? 10 then [EPrint LRpmWarning; ESleep 60] else [])
          ++ (if rph <? 10 then [EPrint LRphWarning; ESleep 3600] else []),
        Ok tt)
     ∧ sleeps (check_limits response h).1 =
         (if rpm <? 10 then [60] else [])
           ++ (if rph <? 10 then [3600] else []))
  ∧ (∀ e,
       py_int (headers_get response "x-ratelimit-remaining" 0) = Raise e
       ∨ py_int (headers_get response "x-ratelimit-remaining-hour" 0)
         = Raise e →
       check_limits response h = ([], Raise ValueError)
       ∧ sleeps (check_limits response h).1 = []).
Proof.
  split.
  - intros rpm rph Hm Hh.
    rewrite py_int_headers_get in Hm, Hh by reflexivity.
    assert (check_limits response h = (limit_events rpm rph, Ok tt)) as ->.
    { apply check_limits_parsed.
      - by destruct (header_count response "x-ratelimit-remaining");
          simplify_eq.
      - by destruct (header_count response "x-ratelimit-remaining-hour");
          simplify_eq. }
    split; [done|].
    unfold limit_events. by destruct (rpm <? 10), (rph <? 10).
  - intros e He.
    assert (check_limits response h = ([], Raise ValueError)) as ->; [|done].
    apply check_limits_unparsed.
    rewrite !py_int_headers_get in He by reflexivity.
    destruct He as [He|He]; [left|right].
    + by destruct (header_count response "x-ratelimit-remaining").
    + by destruct (header_count response "x-ratelimit-remaining-hour").
Qed.

Lemma check_limits_pauses_witness :
  (check_limits low_counts [] =
     ([EPrint (LLimits 5 3); EPrint LRpmWarning; ESleep 60;
       EPrint LRphWarning; ESleep 3600], Ok tt)
   ∧ sleeps (check_limits low_counts []).1 = [60; 3600])
  ∧ (check_limits low_minute_bad_hour [] = ([], Raise ValueError)
     ∧ sleeps (check_limits low_minute_bad_hour []).1 = []).
Proof.
  split.
  - apply (proj1 (check_limits_pauses low_counts []) 5 3);
      vm_compute; reflexivity.
  - apply (proj2 (check_limits_pauses low_minute_bad_hour []) ValueError).
    right. vm_compute. reflexivity.
Defined.

(** C7, counterexample: a reply whose per-minute header holds [5] and whose
    per-hour header holds [abc]; the per-minute count is read as 5, less
    than 10, yet there is no pause of 60 seconds: [int] raises on the
    per-hour header before the tests are reached. *)
Lemma low_minute_count_without_pause :
  py_int (headers_get low_minute_bad_hour "x-ratelimit-remaining" 0) = Ok 5
  ∧ 5 < 10
  ∧ check_limits low_minute_bad_hour [] = ([], Raise ValueError)
  ∧ sleeps (check_limits low_minute_bad_hour []).1 = [].
Proof. vm_compute. done. Qed.

(** ** Proxy selection and request count *)



(** C5, as the code has it: without an override ([PROFILE_COUNT] not
    positive) the loaded proxies are the rows of the file in file order, and
    the requests issued carry, one each and in that order, the first proxies
    of the list; they carry all [P] of them when the run ends normally, which
    it does when every reply is handled (an error status, or a well-formed
    success).  An exception of another kind ends the run early. *)
Theorem requests_follow_file_order
    (requests_post : list event → string → Payload → post_result)
    (PROFILE_COUNT : Z) (PROXY_CSV : proxy_source) (COOKIE_JSON : cookie_source)
    (ps : list (gmap string string)) (cm : gmap string json) :
  load_proxies PROXY_CSV = Ok ps →
  load_cookies COOKIE_JSON = Ok cm →
  PROFILE_COUNT ≤ 0 →
  (∃ rows, PROXY_CSV = ProxyRows rows
           ∧ Forall2 (λ row p, load_row row = Ok p) rows ps)
  ∧ (proxy <$> posts (run requests_post PROFILE_COUNT PROXY_CSV COOKIE_JSON).1)
      `prefix_of` ps
  ∧ ((run requests_post PROFILE_COUNT PROXY_CSV COOKIE_JSON).2 = Ok tt →
     proxy <$> posts (run requests_post PROFILE_COUNT PROXY_CSV COOKIE_JSON).1
     = ps)
  ∧ ((∀ h u p, reply_handled (requests_post h u p) = true) →
     (run requests_post PROFILE_COUNT PROXY_CSV COOKIE_JSON).2 = Ok tt).
Proof.
  intros Hps Hcm Hcount.
  pose proof (proj1 (load_proxies_ok _ _) Hps) as [Hne Hrows].
  split; [done|].
  assert (total_of PROFILE_COUNT ps = len ps) as Htotal.
  { unfold total_of. by rewrite (proj2 (Z.ltb_ge 0 PROFILE_COUNT)). }
  destruct (run_posts requests_post PROFILE_COUNT _ _ ps cm Hps Hcm)
    as (k & Hk & Hposts & Hok).
  rewrite Htotal in Hk, Hok. unfold len in Hk, Hok.
  rewrite Nat2Z.id in Hk, Hok.
  rewrite Hposts, proxies_of_spec_requests by done.
  split; [apply prefix_take|]. split.
  - intros Hrun. rewrite (Hok Hrun). apply firstn_all.
  - intros Hall. rewrite (run_eq _ _ _ _ ps cm) by done. simpl.
    pose proof (total_of_pos PROFILE_COUNT ps Hne) as Hpos.
    rewrite range_from_1, <- cycle_after_0 by lia.
    by rewrite main_loop_handled.
Qed.

Lemma requests_follow_file_order_witness :
  (∃ rows, ProxyRows demo_rows = ProxyRows rows
           ∧ Forall2 (λ row p, load_row row = Ok p) rows demo_proxies)
  ∧ (proxy <$> posts (run (refuse_nth 0) 0 (ProxyRows demo_rows)
                        CookieFileMissing).1) `prefix_of` demo_proxies
  ∧ ((run (refuse_nth 0) 0 (ProxyRows demo_rows) CookieFileMissing).2 = Ok tt →
     proxy <$> posts (run (refuse_nth 0) 0 (ProxyRows demo_rows)
                        CookieFileMissing).1 = demo_proxies)
  ∧ ((∀ h u p, reply_handled (refuse_nth 0 h u p) = true) →
     (run (refuse_nth 0) 0 (ProxyRows demo_rows) CookieFileMissing).2 = Ok tt).
Proof.
  apply (requests_follow_file_order (refuse_nth 0) 0 (ProxyRows demo_rows)
           CookieFileMissing demo_proxies ∅).
  - vm_compute. reflexivity.
  - reflexivity.
  - lia.
Defined.

(** C5, counterexample: a well-formed file of two rows, no override, and a
    service that does not answer in time.  The first request raises
    [Timeout], which [main] does not catch: one request is issued, not
    two. *)
Lemma timeout_stops_the_run :
  load_proxies (ProxyRows demo_rows) = Ok demo_proxies
  ∧ length demo_proxies = 2%nat
  ∧ (run (always (PostRaises Timeout)) 0 (ProxyRows demo_rows)
       CookieFileMissing).2 = Raise (RequestException Timeout)
  ∧ proxy <$> posts (run (always (PostRaises Timeout)) 0
                       (ProxyRows demo_rows) CookieFileMissing).1
    = take 1 demo_proxies.
Proof. vm_compute. done. Qed.

(** ** Failures inside an iteration *)

(** C2, as the code has it: when iteration [i] is reached and the reply to
    its request has an error status 400..599, the [HTTPError] is handled in
    the iteration, which prints its two lines and ends normally; after an
    iteration that ends normally the loop goes on with iteration [i + 1] and
    the rest of the range; an iteration ends normally exactly when its reply
    is handled; every exception that leaves the iteration is no [HTTPError],
    leaves [main] too and ends the run at that iteration. *)
Theorem loop_survives_http_errors_only
    (requests_post : list event → string → Payload → post_result)
    (cm : gmap string json) (ps : list (gmap string string)) (i t : Z)
    (evs : list event) (c c' : Itertools.cycle_state (gmap string string))
    (proxy : gmap string string) :
  1 ≤ i ≤ t →
  main_loop requests_post cm (range 1 i) (Itertools.cycle ps) [] = (evs, Ok c) →
  Itertools.next c = (Some proxy, c') →
  (∀ r,
      requests_post evs profiles_url (build_payload cm i proxy)
        = PostResponse r →
      400 ≤ status_code r < 600 →
      loop_body requests_post cm i c evs =
        ([EPost profiles_url (build_payload cm i proxy);
          EPrint (LHttpError i r); EPrint (LServerResponse (text r))], Ok c'))
  ∧ (∀ evs_i,
      loop_body requests_post cm i c evs = (evs_i, Ok c') →
      main_loop requests_post cm (range 1 (t + 1)) (Itertools.cycle ps) [] =
        (evs ++ evs_i
           ++ (main_loop requests_post cm (range (i + 1) (t + 1)) c'
                 (evs ++ evs_i)).1,
         (main_loop requests_post cm (range (i + 1) (t + 1)) c'
            (evs ++ evs_i)).2))
  ∧ (reply_handled
       (requests_post evs profiles_url (build_payload cm i proxy)) = true
     ↔ (loop_body requests_post cm i c evs).2 = Ok c')
  ∧ (∀ e,
      (loop_body requests_post cm i c evs).2 = Raise e →
      (∀ r, e ≠ HTTPError r)
      ∧ main_loop requests_post cm (range 1 (t + 1)) (Itertools.cycle ps) [] =
          (evs ++ (loop_body requests_post cm i c evs).1, Raise e)).
Proof.
  intros Hi Hloop Hnext. split; [|split; [|split]].
  - intros r Hreply Hstatus.
    apply (loop_body_http_error _ _ _ _ c' proxy _ r); try done.
    by apply is_http_error_spec.
  - intros evs_i Hbody.
    by rewrite (main_loop_cut _ _ _ i t evs c), Hbody by done.
  - rewrite (loop_body_eq _ _ _ _ c' proxy) by done. simpl.
    rewrite (after_reply_handled i _
               (evs ++ [EPost profiles_url (build_payload cm i proxy)])).
    destruct (after_reply _ _ _) as [evs_i [[]|e]]; simpl; split; congruence.
  - intros e He. split.
    + intros r. revert He.
      rewrite (loop_body_eq _ _ _ _ c' proxy) by done. simpl.
      pose proof (after_reply_not_http_error i
        (requests_post evs profiles_url (build_payload cm i proxy))
        (evs ++ [EPost profiles_url (build_payload cm i proxy)])) as Hnot.
      destruct (after_reply _ _ _) as [evs_i [[]|e']]; simpl in *; [done|].
      intros [= ->]. by apply Hnot.
    + rewrite (main_loop_cut _ _ _ i t evs c) by done.
      destruct (loop_body requests_post cm i c evs) as [evs_i r].
      simpl in He. by subst r.
Qed.

Lemma loop_survives_http_errors_only_witness :
  (∀ r,
      refuse_nth 1 demo_history profiles_url
        (build_payload demo_cookies 2 demo_proxy_2) = PostResponse r →
      400 ≤ status_code r < 600 →
      loop_body (refuse_nth 1) demo_cookies 2 (cycle_after demo_proxies 1)
        demo_history =
        ([EPost profiles_url (build_payload demo_cookies 2 demo_proxy_2);
          EPrint (LHttpError 2 r); EPrint (LServerResponse (text r))],
         Ok (cycle_after demo_proxies 2)))
  ∧ (∀ evs_i,
      loop_body (refuse_nth 1) demo_cookies 2 (cycle_after demo_proxies 1)
        demo_history = (evs_i, Ok (cycle_after demo_proxies 2)) →
      main_loop (refuse_nth 1) demo_cookies (range 1 (3 + 1))
        (Itertools.cycle demo_proxies) [] =
        (demo_history ++ evs_i
           ++ (main_loop (refuse_nth 1) demo_cookies (range (2 + 1) (3 + 1))
                 (cycle_after demo_proxies 2) (demo_history ++ evs_i)).1,
         (main_loop (refuse_nth 1) demo_cookies (range (2 + 1) (3 + 1))
            (cycle_after demo_proxies 2) (demo_history ++ evs_i)).2))
  ∧ (reply_handled
       (refuse_nth 1 demo_history profiles_url
          (build_payload demo_cookies 2 demo_proxy_2)) = true
     ↔ (loop_body (refuse_nth 1) demo_cookies 2 (cycle_after demo_proxies 1)
          demo_history).2 = Ok (cycle_after demo_proxies 2))
  ∧ (∀ e,
      (loop_body (refuse_nth 1) demo_cookies 2 (cycle_after demo_proxies 1)
         demo_history).2 = Raise e →
      (∀ r, e ≠ HTTPError r)
      ∧ main_loop (refuse_nth 1) demo_cookies (range 1 (3 + 1))
          (Itertools.cycle demo_proxies) [] =
          (demo_history
             ++ (loop_body (refuse_nth 1) demo_cookies 2
                   (cycle_after demo_proxies 1) demo_history).1, Raise e)).
Proof.
  apply (loop_survives_http_errors_only (refuse_nth 1) demo_cookies
           demo_proxies 2 3 demo_history
           (cycle_after demo_proxies 1) (cycle_after demo_proxies 2)
           demo_proxy_2).
  - lia.
  - vm_compute. reflexivity.
  - vm_compute. reflexivity.
Defined.

(** C2, counterexample: three iterations are due and the network is down.
    The [ConnectionError] raised while sending the first request is not
    handled in the iteration: the run ends with it after one request, and
    iterations 2 and 3 never start. *)
Lemma connection_error_aborts_remaining_iterations :
  total_of 3 demo_proxies = 3
  ∧ (run (always (PostRaises ConnectionError)) 3 (ProxyRows demo_rows)
       CookieFileMissing).2 = Raise (RequestException ConnectionError)
  ∧ title <$> posts (run (always (PostRaises ConnectionError)) 3
                       (ProxyRows demo_rows) CookieFileMissing).1
    = ["BatchProfile_1"].
Proof. vm_compute. done. Qed.

(** C8, as the code has it: when iteration [i] of [t] (with [i < t]) is
    reached and the reply to its request has an error status 400..599, the
    run prints the error line and the server's body and then sends the
    request of iteration [i + 1], whose title, proxy (position [i mod P]),
    cookies (the truthy entry at key [str(i)]) and fingerprint do not depend
    on the reply. *)
Theorem http_error_then_next_request
    (requests_post : list event → string → Payload → post_result)
    (cm : gmap string json) (ps : list (gmap string string)) (i t : Z)
    (evs : list event) (c c' : Itertools.cycle_state (gmap string string))
    (proxy_i : gmap string string) (r : Response) :
  ps ≠ [] →
  1 ≤ i < t →
  main_loop requests_post cm (range 1 i) (Itertools.cycle ps) [] = (evs, Ok c) →
  Itertools.next c = (Some proxy_i, c') →
  requests_post evs profiles_url (build_payload cm i proxy_i)
    = PostResponse r →
  400 ≤ status_code r < 600 →
  ∃ (p_next : Payload) (rest : list event),
    (main_loop requests_post cm (range 1 (t + 1)) (Itertools.cycle ps) []).1
    = evs ++ [EPost profiles_url (build_payload cm i proxy_i);
              EPrint (LHttpError i r);
              EPrint (LServerResponse (text r));
              EPost profiles_url p_next] ++ rest
    ∧ title p_next = "BatchProfile_" +:+ pretty (i + 1)
    ∧ ps !! Z.to_nat (i mod len ps) = Some (proxy p_next)
    ∧ cookies p_next =
        match cm !! pretty i with
        | Some v => if truthy v then Some v else None
        | None => None
        end
    ∧ fingerprint p_next = DEFAULT_FP.
Proof.
  intros Hne Hi Hloop Hnext Hreply Hstatus.
  pose proof (main_loop_reaches requests_post cm ps i evs c Hne
                ltac:(lia) Hloop) as ->.
  rewrite next_cycle_after in Hnext by done.
  assert (c' = cycle_after ps (S (Z.to_nat (i - 1)))) as -> by congruence.
  rewrite (main_loop_cut _ _ _ i t evs (cycle_after ps (Z.to_nat (i - 1))))
    by (done || lia).
  rewrite (loop_body_http_error _ _ _ _
             (cycle_after ps (S (Z.to_nat (i - 1)))) proxy_i _ r)
    by (by rewrite ?next_cycle_after, ?is_http_error_spec).
  rewrite (range_cons (i + 1) (t + 1)) by lia. cbn [main_loop fst].
  replace (S (Z.to_nat (i - 1))) with (Z.to_nat i) by lia.
  unfold bind.
  set (h := evs ++ [EPost profiles_url (build_payload cm i proxy_i);
                    EPrint (LHttpError i r);
                    EPrint (LServerResponse (text r))]).
  pose proof (loop_body_at requests_post cm ps (Z.to_nat i) h Hne) as Hbody.
  rewrite Z2Nat.id in Hbody by lia. cbv zeta in Hbody. rewrite Hbody.
  set (p_next := spec_request ps cm (i + 1)).
  destruct (after_reply (i + 1) (requests_post h profiles_url p_next)
              (h ++ [EPost profiles_url p_next])) as [evs_n [[]|e]];
    cbn [fst snd].
  - destruct (main_loop requests_post cm (range (i + 1 + 1) (t + 1)) _ _)
      as [evs_r r_r].
    exists p_next, (evs_n ++ evs_r). split; [done|].
    split; [done|]. split.
    { pose proof (spec_request_proxy ps cm (i + 1) Hne) as Hp.
      by replace (i + 1 - 1) with i in Hp by lia. }
    split; [|done]. subst p_next. unfold spec_request, build_payload. simpl.
    replace (i + 1 - 1) with i by lia.
    by destruct (cm !! pretty i).
  - exists p_next, evs_n. split; [done|].
    split; [done|]. split.
    { pose proof (spec_request_proxy ps cm (i + 1) Hne) as Hp.
      by replace (i + 1 - 1) with i in Hp by lia. }
    split; [|done]. subst p_next. unfold spec_request, build_payload. simpl.
    replace (i + 1 - 1) with i by lia.
    by destruct (cm !! pretty i).
Qed.

Lemma http_error_then_next_request_witness :
  ∃ (p_next : Payload) (rest : list event),
    (main_loop (refuse_nth 1) demo_cookies (range 1 (3 + 1))
       (Itertools.cycle demo_proxies) []).1
    = demo_history
        ++ [EPost profiles_url (build_payload demo_cookies 2 demo_proxy_2);
            EPrint (LHttpError 2 (plain_reply 429));
            EPrint (LServerResponse (text (plain_reply 429)));
            EPost profiles_url p_next] ++ rest
    ∧ title p_next = "BatchProfile_" +:+ pretty (2 + 1)
    ∧ demo_proxies !! Z.to_nat (2 mod len demo_proxies) = Some (proxy p_next)
    ∧ cookies p_next =
        match demo_cookies !! pretty 2 with
        | Some v => if truthy v then Some v else None
        | None => None
        end
    ∧ fingerprint p_next = DEFAULT_FP.
Proof.
  apply (http_error_then_next_request (refuse_nth 1) demo_cookies
           demo_proxies 2 3 demo_history
           (cycle_after demo_proxies 1) (cycle_after demo_proxies 2)
           demo_proxy_2 (plain_reply 429)).
  - done.
  - lia.
  - vm_compute. reflexivity.
  - vm_compute. reflexivity.
  - vm_compute. reflexivity.
  - simpl. lia.
Defined.

(** C8, counterexample: two iterations are due and the reply to the first
    request has status 300, which is not 2xx.  [raise_for_status] raises
    nothing, so no error line is printed: the rate-limit check runs, then the
    body, which is not JSON, makes [resp.json()] raise, and the run ends
    before iteration 2. *)
Lemma status_300_is_not_reported :
  run (always (PostResponse (plain_reply 300))) 2 (ProxyRows demo_rows)
    CookieFileMissing
  = ([EPost profiles_url
        (build_payload ∅ 1 {[ "host" := "10.0.0.1"; "port" := "8080" ]});
      EPrint (LLimits 0 0);
      EPrint LRpmWarning; ESleep 60; EPrint LRphWarning; ESleep 3600],
     Raise JSONDecodeError).
Proof. vm_compute. reflexivity. Qed.

(** ** The order of status check and rate-limit check *)

(** C10, as the code has it: for a reply with an error status 400..599
    [api_post] raises [HTTPError] right after the request, so nothing is
    printed and no pause is made; for a reply with any other status, 2xx or
    not, [check_limits] runs on it and [api_post] raises no [HTTPError]. *)
Theorem api_post_checks_limits_unless_http_error
    (requests_post : list event → string → Payload → post_result)
    (endpoint : string) (payload : Payload) (h : list event)
    (resp : Response) :
  requests_post h (API_BASE +:+ "/" +:+ Py.lstrip "/" endpoint) payload
    = PostResponse resp →
  (400 ≤ status_code resp < 600 →
   api_post requests_post endpoint payload h =
     ([EPost (API_BASE +:+ "/" +:+ Py.lstrip "/" endpoint) payload],
      Raise (HTTPError resp)))
  ∧ (¬ 400 ≤ status_code resp < 600 →
     (api_post requests_post endpoint payload h).1 =
       EPost (API_BASE +:+ "/" +:+ Py.lstrip "/" endpoint) payload
         :: (check_limits resp
               (h ++ [EPost (API_BASE +:+ "/" +:+ Py.lstrip "/" endpoint)
                        payload])).1
     ∧ ∀ r, (api_post requests_post endpoint payload h).2
            ≠ Raise (HTTPError r)).
Proof.
  intros Hreply.
  unfold api_post, post, raise_for_status, lift, ret, raise, bind.
  rewrite Hreply.
  fold (is_http_error resp).
  destruct (is_http_error resp) eqn:Herr.
  - apply is_http_error_spec in Herr. split; [done|]. by intros [].
  - assert (¬ 400 ≤ status_code resp < 600) as Hnot.
    { rewrite <- is_http_error_spec. congruence. }
    split; [done|]. intros _. rewrite !app_nil_r.
    destruct (check_limits_cases resp
                (h ++ [EPost (API_BASE +:+ "/" +:+ Py.lstrip "/" endpoint)
                         payload])) as [(rpm & rph & ->)| ->];
      [|by split].
    destruct (resp_json resp) as [body|e] eqn:Hbody.
    + destruct (getitem body "data") as [data|e] eqn:Hdata.
      * split; [by rewrite !app_nil_r|done].
      * split; [by rewrite !app_nil_r|].
        intros r. by destruct (getitem_raises _ _ _ Hdata) as [->| ->].
    + split; [by rewrite !app_nil_r|]. intros r.
      by rewrite (resp_json_raises _ _ Hbody).
Qed.

Lemma api_post_checks_limits_unless_http_error_witness :
  (400 ≤ status_code (plain_reply 429) < 600 →
   api_post (always (PostResponse (plain_reply 429))) "/profiles"
     demo_payload [] =
     ([EPost (API_BASE +:+ "/" +:+ Py.lstrip "/" "/profiles") demo_payload],
      Raise (HTTPError (plain_reply 429))))
  ∧ (¬ 400 ≤ status_code (plain_reply 429) < 600 →
     (api_post (always (PostResponse (plain_reply 429))) "/profiles"
        demo_payload []).1 =
       EPost (API_BASE +:+ "/" +:+ Py.lstrip "/" "/profiles") demo_payload
         :: (check_limits (plain_reply 429)
               ([] ++ [EPost (API_BASE +:+ "/" +:+ Py.lstrip "/" "/profiles")
                         demo_payload])).1
     ∧ ∀ r, (api_post (always (PostResponse (plain_reply 429))) "/profiles"
               demo_payload []).2 ≠ Raise (HTTPError r)).
Proof.
  apply (api_post_checks_limits_unless_http_error
           (always (PostResponse (plain_reply 429))) "/profiles"
           demo_payload [] (plain_reply 429)).
  reflexivity.
Defined.

(** C10, counterexample: a reply with status 300, which is not 2xx, and a
    per-minute count of 5.  [api_post] raises nothing, [check_limits] runs
    and pauses 60 seconds. *)
Lemma status_300_reaches_check_limits :
  api_post (always (PostResponse multiple_choices)) "profiles" demo_payload []
  = ([EPost profiles_url demo_payload;
      EPrint (LLimits 5 500); EPrint LRpmWarning; ESleep 60],
     Ok (JObj {[ "uuid" := JStr "u" ]})).
Proof. vm_compute. reflexivity. Qed.

(** ** Cookies *)

(** C6, as the code has it: the request of iteration [i] has a [cookies]
    field exactly when the cookie map has, at key [str(i - 1)], a value that
    is truthy, and the field then holds that value; this key is the decimal
    numeral of [k] only for [i = k + 1], so an entry at key [k] can only
    reach request [k + 1]; every other request is sent without the field. *)
Theorem cookies_attached_iff_truthy_entry
    (requests_post : list event → string → Payload → post_result)
    (PROFILE_COUNT : Z) (PROXY_CSV : proxy_source) (COOKIE_JSON : cookie_source)
    (ps : list (gmap string string)) (cm : gmap string json)
    (i : Z) (p : Payload) :
  load_proxies PROXY_CSV = Ok ps →
  load_cookies COOKIE_JSON = Ok cm →
  1 ≤ i →
  posts (run requests_post PROFILE_COUNT PROXY_CSV COOKIE_JSON).1
    !! Z.to_nat (i - 1) = Some p →
  (∀ c, cookies p = Some c
        ↔ cm !! pretty (i - 1) = Some c ∧ truthy c = true)
  ∧ (∀ k : Z, pretty (i - 1) = pretty k ↔ i = k + 1)
  ∧ (cookies p = None
     ↔ ∀ c, cm !! pretty (i - 1) = Some c → truthy c = false).
Proof.
  intros Hps Hcm Hi Hp.
  destruct (run_posts requests_post PROFILE_COUNT _ _ ps cm Hps Hcm)
    as (n & _ & Hposts & _).
  rewrite Hposts in Hp. apply lookup_spec_requests in Hp as [_ ->].
  replace (Z.of_nat (Z.to_nat (i - 1)) + 1) with i by lia.
  unfold spec_request. split; [|split].
  - intros c. apply build_payload_cookies.
  - intros k. split.
    + intros Hk%(inj pretty). lia.
    + intros ->. f_equal. lia.
  - unfold build_payload. simpl.
    destruct (cm !! pretty (i - 1)) as [v|]; simpl.
    + destruct (truthy v) eqn:Hv; split; try done.
      * intros Hall. specialize (Hall v eq_refl). congruence.
      * intros _ c [= <-]. done.
    + done.
Qed.

Lemma cookies_attached_iff_truthy_entry_witness :
  (∀ c, cookies (build_payload demo_cookies 1
                   {[ "host" := "10.0.0.1"; "port" := "8080" ]}) = Some c
        ↔ demo_cookies !! pretty (1 - 1) = Some c ∧ truthy c = true)
  ∧ (∀ k : Z, pretty (1 - 1) = pretty k ↔ 1 = k + 1)
  ∧ (cookies (build_payload demo_cookies 1
                {[ "host" := "10.0.0.1"; "port" := "8080" ]}) = None
     ↔ ∀ c, demo_cookies !! pretty (1 - 1) = Some c → truthy c = false).
Proof.
  apply (cookies_attached_iff_truthy_entry (refuse_nth 1) 3
           (ProxyRows demo_rows) (CookieJson (JObj demo_cookies))
           demo_proxies demo_cookies 1).
  - vm_compute. reflexivity.
  - reflexivity.
  - lia.
  - vm_compute. reflexivity.
Defined.

(** C6, counterexample: the cookie map has the key ["0"] with an empty
    array; the payload of iteration 1 has no [cookies] field although the
    map has the key [str(1 - 1)]. *)
Lemma empty_cookie_entry_is_not_attached :
  is_Some (({[ "0" := JArr [] ]} : gmap string json) !! pretty (1 - 1))
  ∧ posts (run (always (PostResponse (created "50"))) 1 (ProxyRows demo_rows)
             (CookieJson (JObj {[ "0" := JArr [] ]}))).1
    = [ {| title := "BatchProfile_1";
           proxy := {[ "host" := "10.0.0.1"; "port" := "8080" ]};
           fingerprint := DEFAULT_FP;
           cookies := None |} ].
Proof. split; [by eexists|]. vm_compute. reflexivity. Qed.

(** C9: when the cookie map holds, at the key [str(i - 1)] of iteration [i],
    a value that is falsy (an empty array, [null], ...), the payload of
    iteration [i] has no [cookies] field, the request of iteration [i] in a
    run is sent without it, and the whole run is the run with that key
    deleted from the map. *)
Theorem falsy_cookie_entry_counts_as_absent
    (requests_post : list event → string → Payload → post_result)
    (PROFILE_COUNT : Z) (PROXY_CSV : proxy_source)
    (cm : gmap string json) (i : Z) (v : json) :
  cm !! pretty (i - 1) = Some v →
  truthy v = false →
  (∀ proxy,
      cookies (build_payload cm i proxy) = None
      ∧ build_payload cm i proxy
        = build_payload (delete (pretty (i - 1)) cm) i proxy)
  ∧ (∀ p,
      1 ≤ i →
      posts (run requests_post PROFILE_COUNT PROXY_CSV
               (CookieJson (JObj cm))).1 !! Z.to_nat (i - 1) = Some p →
      cookies p = None)
  ∧ run requests_post PROFILE_COUNT PROXY_CSV (CookieJson (JObj cm))
    = run requests_post PROFILE_COUNT PROXY_CSV
        (CookieJson (JObj (delete (pretty (i - 1)) cm))).
Proof.
  intros Hk Hv. split; [|split].
  - intros proxy. split.
    + unfold build_payload. simpl. rewrite Hk. simpl. by rewrite Hv.
    + symmetry. by apply (build_payload_delete_falsy _ _ v).
  - intros p Hi Hp.
    destruct (load_proxies PROXY_CSV) as [ps|e] eqn:Hps.
    + destruct (run_posts requests_post PROFILE_COUNT PROXY_CSV
                  (CookieJson (JObj cm)) ps cm Hps eq_refl)
        as (n & _ & Hposts & _).
      rewrite Hposts in Hp. apply lookup_spec_requests in Hp as [_ ->].
      replace (Z.of_nat (Z.to_nat (i - 1)) + 1) with i by lia.
      unfold spec_request, build_payload. simpl. rewrite Hk. simpl.
      by rewrite Hv.
    + unfold run, main, bind, lift in Hp. by rewrite Hps in Hp.
  - unfold run, main, bind, lift.
    destruct (load_proxies PROXY_CSV) as [ps|e]; [|done]. simpl.
    rewrite (main_loop_ext requests_post cm (delete (pretty (i - 1)) cm));
      [done|].
    intros j proxy. symmetry. by apply (build_payload_delete_falsy _ _ v).
Qed.

Lemma falsy_cookie_entry_counts_as_absent_witness :
  (∀ proxy,
      cookies (build_payload demo_cookies 2 proxy) = None
      ∧ build_payload demo_cookies 2 proxy
        = build_payload (delete (pretty (2 - 1)) demo_cookies) 2 proxy)
  ∧ (∀ p,
      1 ≤ 2 →
      posts (run (refuse_nth 0) 0 (ProxyRows demo_rows)
               (CookieJson (JObj demo_cookies))).1 !! Z.to_nat (2 - 1)
        = Some p →
      cookies p = None)
  ∧ run (refuse_nth 0) 0 (ProxyRows demo_rows) (CookieJson (JObj demo_cookies))
    = run (refuse_nth 0) 0 (ProxyRows demo_rows)
        (CookieJson (JObj (delete (pretty (2 - 1)) demo_cookies))).
Proof.
  apply (falsy_cookie_entry_counts_as_absent (refuse_nth 0) 0
           (ProxyRows demo_rows) demo_cookies 2 (JArr [])).
  - vm_compute. reflexivity.
  - reflexivity.
Defined.

(** ** Validation of the port *)

(** C1, the code at a row whose port is [abc]: [int] rejects the value, yet
    [load_proxies] returns the row as a proxy, and the run posts a profile
    that carries it. *)
Theorem non_numeric_port_is_loaded_and_posted :
  Py.int_of_str "abc" = None
  ∧ load_proxies
      (ProxyRows [ {| fields := [("host", Some "10.0.0.1");
                                 ("port", Some "abc")];
                      surplus := [] |} ])
    = Ok [ {[ "host" := "10.0.0.1"; "port" := "abc" ]} ]
  ∧ posts (run (always (PostResponse (created "50"))) 0
             (ProxyRows [ {| fields := [("host", Some "10.0.0.1");
                                        ("port", Some "abc")];
                             surplus := [] |} ])
             CookieFileMissing).1
    = [ {| title := "BatchProfile_1";
           proxy := {[ "host" := "10.0.0.1"; "port" := "abc" ]};
           fingerprint := DEFAULT_FP;
           cookies := None |} ].
Proof. vm_compute. done. Qed.

(** * Further properties *)

(** ** Stripping *)

Section Strip.
Variable f : ascii → bool.

Lemma rev_app_rev_app s1 s2 :
  String.rev_app (String.rev_app s1 s2) "" = String.rev_app s2 s1.
Proof.
  revert s2. induction s1 as [|c s1 IH]; intros s2; simpl; [done|].
  by rewrite IH.
Qed.

Lemma string_rev_involutive s : String.rev (String.rev s) = s.
Proof. unfold String.rev. by rewrite rev_app_rev_app. Qed.

Lemma head_char_rev_app s1 s2 :
  head_char (String.rev_app s1 s2) =
    match last_char s1 with
    | Some c => Some c
    | None => head_char s2
    end.
Proof.
  revert s2. induction s1 as [|c s1 IH]; intros s2; simpl; [done|].
  rewrite IH. by destruct (last_char s1).
Qed.

Lemma head_char_rev s : head_char (String.rev s) = last_char s.
Proof.
  unfold String.rev. rewrite head_char_rev_app. by destruct (last_char s).
Qed.

Lemma last_char_rev s : last_char (String.rev s) = head_char s.
Proof. by rewrite <- head_char_rev, string_rev_involutive. Qed.

Lemma last_char_None s : last_char s = None → s = "".
Proof. destruct s as [|c r]; simpl; [done|]. by destruct (last_char r). Qed.

Lemma head_char_lstrip s c :
  head_char (Py.lstrip_with f s) = Some c → f c = false.
Proof.
  induction s as [|c' r IH]; simpl; [done|].
  destruct (f c') eqn:Hc; [done|]. simpl. by intros [= <-].
Qed.

Lemma lstrip_fixed s :
  (∀ c, head_char s = Some c → f c = false) → Py.lstrip_with f s = s.
Proof.
  destruct s as [|c r]; simpl; [done|]. intros Hc. by rewrite (Hc c).
Qed.

Lemma lstrip_idempotent s :
  Py.lstrip_with f (Py.lstrip_with f s) = Py.lstrip_with f s.
Proof. apply lstrip_fixed. intros c. apply head_char_lstrip. Qed.

Lemma last_char_lstrip s :
  Py.lstrip_with f s ≠ "" →
  last_char (Py.lstrip_with f s) = last_char s.
Proof.
  induction s as [|c r IH]; simpl; [done|].
  destruct (f c) eqn:Hc; [|done]. intros Hne. rewrite (IH Hne).
  destruct (last_char r) eqn:Hr; [done|].
  apply last_char_None in Hr as ->. done.
Qed.

Lemma last_char_rstrip s c :
  last_char (Py.rstrip_with f s) = Some c → f c = false.
Proof.
  unfold Py.rstrip_with. rewrite last_char_rev. apply head_char_lstrip.
Qed.

Lemma head_char_rstrip s c :
  (∀ c, head_char s = Some c → f c = false) →
  head_char (Py.rstrip_with f s) = Some c → f c = false.
Proof.
  intros Hs. unfold Py.rstrip_with. rewrite head_char_rev.
  destruct (decide (Py.lstrip_with f (String.rev s) = "")) as [->|Hne];
    [done|].
  rewrite last_char_lstrip, last_char_rev by done. apply Hs.
Qed.

Lemma rstrip_idempotent s :
  Py.rstrip_with f (Py.rstrip_with f s) = Py.rstrip_with f s.
Proof.
  unfold Py.rstrip_with.
  by rewrite string_rev_involutive, lstrip_idempotent.
Qed.

End Strip.

Lemma strip_trimmed s : trimmed (Py.strip s).
Proof.
  unfold trimmed, Py.strip. split; intros c.
  - apply head_char_rstrip. intros c'. apply head_char_lstrip.
  - apply last_char_rstrip.
Qed.

Lemma strip_idempotent s : Py.strip (Py.strip s) = Py.strip s.
Proof.
  unfold Py.strip at 1.
  rewrite (lstrip_fixed Py.isspace (Py.strip s))
    by apply (strip_trimmed s).
  unfold Py.strip. apply rstrip_idempotent.
Qed.

Lemma lstrip_all_space (f : ascii → bool) s :
  (∀ c, c ∈ list_ascii_of_string s → f c = true) → Py.lstrip_with f s = "".
Proof.
  induction s as [|c r IH]; simpl; [done|]. intros Hall.
  rewrite (Hall c) by left. apply IH. intros c' Hc'. apply Hall. by right.
Qed.

Lemma strip_blank s :
  (∀ c, c ∈ list_ascii_of_string s → Py.isspace c = true) → Py.strip s = "".
Proof.
  intros Hall. unfold Py.strip. by rewrite lstrip_all_space.
Qed.

(** ** The proxy loader *)

Lemma str_truthy_spec s : Py.str_truthy s = true ↔ s ≠ "".
Proof. by destruct s. Qed.

Lemma strip_row_clean_into row : strip_row row = clean_into ∅ (fields row).
Proof. done. Qed.

Lemma clean_into_snoc acc l k0 v0 :
  k0 ≠ "" → v0 ≠ "" →
  clean_into acc (l ++ [(k0, Some v0)]) =
    <[Py.strip k0 := Py.strip v0]> (clean_into acc l).
Proof.
  intros Hk Hv. unfold clean_into. rewrite foldl_app. simpl.
  by rewrite (proj2 (str_truthy_spec k0)), (proj2 (str_truthy_spec v0)).
Qed.

Lemma clean_into_lookup acc l k v :
  clean_into acc l !! k = Some v →
  acc !! k = Some v
  ∨ ∃ k0 v0, kept_cell l k0 v0 ∧ k = Py.strip k0 ∧ v = Py.strip v0.
Proof.
  revert acc. induction l as [|[k1 [v1|]] l IH]; intros acc Hkv; simpl in *.
  - by left.
  - destruct (Py.str_truthy v1 && Py.str_truthy k1) eqn:Hkeep.
    + apply andb_true_iff in Hkeep as [Hv1%str_truthy_spec Hk1%str_truthy_spec].
      destruct (IH _ Hkv) as [Hacc|(k0 & v0 & (Hin & ? & ?) & ? & ?)].
      * destruct (decide (Py.strip k1 = k)) as [<-|Hne].
        -- rewrite lookup_insert_eq in Hacc. injection Hacc as <-.
           right. exists k1, v1. repeat split; try done. by left.
        -- rewrite lookup_insert_ne in Hacc by done. by left.
      * right. exists k0, v0. repeat split; try done. by right.
    + destruct (IH _ Hkv) as [Hacc|(k0 & v0 & (Hin & ? & ?) & ? & ?)];
        [by left|].
      right. exists k0, v0. repeat split; try done. by right.
  - destruct (IH _ Hkv) as [Hacc|(k0 & v0 & (Hin & ? & ?) & ? & ?)];
      [by left|].
    right. exists k0, v0. repeat split; try done. by right.
Qed.

Lemma clean_into_is_Some acc l k :
  is_Some (acc !! k) ∨ (∃ k0 v0, kept_cell l k0 v0 ∧ Py.strip k0 = k) →
  is_Some (clean_into acc l !! k).
Proof.
  revert acc. induction l as [|[k1 ov1] l IH]; intros acc Hk.
  - destruct Hk as [Hk|(k0 & v0 & (Hin & _) & _)]; [done|].
    by apply elem_of_nil in Hin.
  - simpl. apply IH.
    destruct Hk as [Hk|(k0 & v0 & (Hin & Hk0 & Hv0) & Hkey)].
    + left. destruct ov1 as [v1|]; [|done].
      destruct (Py.str_truthy v1 && Py.str_truthy k1); [|done].
      destruct (decide (Py.strip k1 = k)) as [<-|Hne].
      * rewrite lookup_insert_eq. by eexists.
      * by rewrite lookup_insert_ne.
    + apply elem_of_cons in Hin as [[= <- <-]|Hin].
      * left.
        rewrite (proj2 (str_truthy_spec k0)), (proj2 (str_truthy_spec v0))
          by done.
        simpl. rewrite Hkey, lookup_insert_eq. by eexists.
      * right. exists k0, v0. by repeat split.
Qed.

Lemma clean_into_untouched acc l k :
  (∀ k0 v0, kept_cell l k0 v0 → Py.strip k0 ≠ k) →
  clean_into acc l !! k = acc !! k.
Proof.
  revert acc. induction l as [|[k1 [v1|]] l IH]; intros acc Hnone; simpl.
  - done.
  - rewrite IH by (intros k0 v0 (Hin & ? & ?); apply (Hnone k0 v0);
                   split; [by right|done]).
    destruct (Py.str_truthy v1 && Py.str_truthy k1) eqn:Hkeep; [|done].
    apply andb_true_iff in Hkeep as [Hv1%str_truthy_spec Hk1%str_truthy_spec].
    apply lookup_insert_ne, (Hnone k1 v1). split; [by left|done].
  - apply IH. intros k0 v0 (Hin & ? & ?). apply (Hnone k0 v0).
    split; [by right|done].
Qed.

Lemma clean_into_app acc l1 l2 :
  clean_into acc (l1 ++ l2) = clean_into (clean_into acc l1) l2.
Proof. unfold clean_into. apply foldl_app. Qed.

Lemma load_row_ok row p :
  load_row row = Ok p ↔
  p = strip_row row ∧ is_Some (strip_row row !! "port").
Proof.
  unfold load_row, py_str.
  destruct (strip_row row !! "port") as [port|] eqn:Hport.
  - rewrite insert_id by done. split.
    + intros [= <-]. split; [done|]. by eexists.
    + by intros [-> _].
  - split; [done|]. by intros [_ [? ?]].
Qed.

Lemma load_row_raise row e :
  load_row row = Raise e → e = SystemExit (InvalidProxyRow row).
Proof.
  unfold load_row. destruct (strip_row row !! "port"); [done|].
  by intros [= <-].
Qed.

Lemma load_rows_raise good bad rest acc e :
  Forall (λ row, ∃ p, load_row row = Ok p) good →
  load_row bad = Raise e →
  load_rows (good ++ bad :: rest) acc = Raise e.
Proof.
  intros Hgood Hbad. revert acc.
  induction Hgood as [|row good [p Hp] _ IH]; intros acc; simpl.
  - by rewrite Hbad.
  - rewrite Hp. apply IH.
Qed.

(** X1: for a row with pairwise different names, as the items of the
    dict that the reader yields are, the port check of [load_proxies] is
    passed exactly when some item with a non-empty name and a non-empty
    value has a name that is [port] after stripping; the row is then loaded
    as its cleaned dict, and otherwise the process exits naming the row. *)
Theorem row_accepted_iff_port_cell (row : csv_row) :
  distinct_names row →
  (load_row row = Ok (strip_row row)
   ↔ ∃ k0 v0, (k0, Some v0) ∈ fields row ∧ k0 ≠ "" ∧ v0 ≠ ""
              ∧ Py.strip k0 = "port")
  ∧ (∀ p, load_row row = Ok p → p = strip_row row)
  ∧ (∀ e, load_row row = Raise e → e = SystemExit (InvalidProxyRow row)).
Proof.
  intros _. split; [|split].
  - rewrite load_row_ok, strip_row_clean_into. split.
    + intros [_ [port Hport]].
      apply clean_into_lookup in Hport
        as [Hport|(k0 & v0 & (Hin & Hk0 & Hv0) & Hk & _)]; [done|].
      by exists k0, v0.
    + intros (k0 & v0 & Hin & Hk0 & Hv0 & Hk). split; [done|].
      apply clean_into_is_Some. right. by exists k0, v0.
  - intros p Hp. by apply load_row_ok in Hp as [-> _].
  - intros e. apply load_row_raise.
Qed.

Lemma row_accepted_iff_port_cell_witness :
  (load_row padded_port_row = Ok (strip_row padded_port_row)
   ↔ ∃ k0 v0, (k0, Some v0) ∈ fields padded_port_row ∧ k0 ≠ "" ∧ v0 ≠ ""
              ∧ Py.strip k0 = "port")
  ∧ (∀ p, load_row padded_port_row = Ok p → p = strip_row padded_port_row)
  ∧ (∀ e, load_row padded_port_row = Raise e →
          e = SystemExit (InvalidProxyRow padded_port_row)).
Proof.
  apply (row_accepted_iff_port_cell padded_port_row).
  apply (bool_decide_unpack _). vm_compute. reflexivity.
Defined.

Lemma loaded_rows_cleaned (rows : list csv_row)
    (ps : list (gmap string string)) :
  Forall2 (λ row p, load_row row = Ok p) rows ps
  ↔ Forall (λ row, is_Some (strip_row row !! "port")) rows
    ∧ ps = strip_row <$> rows.
Proof.
  split.
  - intros Hall. induction Hall as [|row p rows ps Hp _ [IH1 IH2]].
    + by split.
    + apply load_row_ok in Hp as [-> Hport]. split.
      * by constructor.
      * simpl. by f_equal.
  - intros [Hall ->]. induction Hall as [|row rows Hport _ IH]; simpl.
    + constructor.
    + constructor; [|done]. by apply load_row_ok.
Qed.

(** X2: [load_proxies] succeeds exactly on a file with at least one row in
    which every row has a port entry after cleaning, and then returns the
    cleaned rows, one proxy per row in file order. *)
Theorem load_proxies_succeeds_iff (path : proxy_source)
    (ps : list (gmap string string)) :
  load_proxies path = Ok ps
  ↔ ∃ rows, path = ProxyRows rows
            ∧ rows ≠ []
            ∧ Forall (λ row, is_Some (strip_row row !! "port")) rows
            ∧ ps = strip_row <$> rows.
Proof.
  rewrite load_proxies_ok. split.
  - intros (Hne & rows & -> & Hall). exists rows. split; [done|].
    split.
    + intros ->. by apply Forall2_nil_inv_l in Hall.
    + by apply loaded_rows_cleaned.
  - intros (rows & -> & Hne & Hall & ->). split.
    + by destruct rows.
    + exists rows. split; [done|]. by apply loaded_rows_cleaned.
Qed.

(** X3: the rows are checked in file order and the first one without a
    port entry ends the process with a message naming that row, whatever
    follows it in the file. *)
Theorem first_row_without_port_is_named
    (good : list csv_row) (bad : csv_row) (rest : list csv_row) :
  Forall (λ row, is_Some (strip_row row !! "port")) good →
  strip_row bad !! "port" = None →
  load_proxies (ProxyRows (good ++ bad :: rest))
  = Raise (SystemExit (InvalidProxyRow bad)).
Proof.
  intros Hgood Hbad. unfold load_proxies.
  rewrite (load_rows_raise good bad rest [] (SystemExit (InvalidProxyRow bad)));
    [done| |].
  - eapply Forall_impl; [exact Hgood|]. intros row Hport.
    exists (strip_row row). by apply load_row_ok.
  - unfold load_row. by rewrite Hbad.
Qed.

Lemma first_row_without_port_is_named_witness :
  load_proxies
    (ProxyRows (demo_rows
                  ++ {| fields := [("host", Some "10.0.0.3"); ("port", None)];
                        surplus := [] |}
                  :: [ {| fields := [("host", Some "10.0.0.4")];
                          surplus := ["x"] |} ]))
  = Raise (SystemExit (InvalidProxyRow
             {| fields := [("host", Some "10.0.0.3"); ("port", None)];
                surplus := [] |})).
Proof.
  apply (first_row_without_port_is_named demo_rows).
  - repeat constructor; vm_compute; by eexists.
  - vm_compute. reflexivity.
Defined.

(** X4: every key and every value of a loaded proxy is stripped: applying
    [strip] again changes nothing, and neither end of it is white space. *)
Theorem loaded_entries_are_stripped (path : proxy_source)
    (ps : list (gmap string string)) (p : gmap string string)
    (k v : string) :
  load_proxies path = Ok ps →
  p ∈ ps →
  p !! k = Some v →
  Py.strip k = k ∧ Py.strip v = v ∧ trimmed k ∧ trimmed v.
Proof.
  intros Hps Hp Hkv.
  apply load_proxies_ok in Hps as (_ & rows & _ & Hall).
  apply loaded_rows_cleaned in Hall as [_ ->].
  apply list_elem_of_fmap in Hp as (row & -> & _).
  rewrite strip_row_clean_into in Hkv.
  apply clean_into_lookup in Hkv as [Hkv|(k0 & v0 & _ & -> & ->)]; [done|].
  split; [apply strip_idempotent|]. split; [apply strip_idempotent|].
  split; apply strip_trimmed.
Qed.

Lemma loaded_entries_are_stripped_witness :
  Py.strip "port" = "port" ∧ Py.strip "3128" = "3128"
  ∧ trimmed "port" ∧ trimmed "3128".
Proof.
  apply (loaded_entries_are_stripped (ProxyRows demo_rows) demo_proxies
           demo_proxy_2 "port" "3128").
  - vm_compute. reflexivity.
  - unfold demo_proxies, demo_proxy_2. right. left.
  - vm_compute. reflexivity.
Defined.

Lemma distinct_names_split row l1 k0 ov l2 :
  distinct_names row →
  fields row = l1 ++ (k0, ov) :: l2 →
  ∀ ov', (k0, ov') ∉ l2.
Proof.
  unfold distinct_names. intros Hnd Hsplit ov' Hin.
  rewrite Hsplit, fmap_app, fmap_cons in Hnd.
  apply NoDup_app in Hnd as (_ & _ & Hnd).
  apply NoDup_cons in Hnd as [Hk0 _]. apply Hk0.
  apply list_elem_of_fmap. by exists (k0, ov').
Qed.

(** X5: the filter of [load_proxies] runs before [strip]. In a row with
    pairwise different names, an item whose name is [port] after stripping
    and whose value is not empty but holds only white space is not dropped,
    wherever it stands in the row: the row passes the port check, and when
    no other kept item has a name that strips to [port], the port that is
    loaded is the empty string. *)
Theorem blank_port_cell_is_accepted (row : csv_row) (k0 v0 : string) :
  distinct_names row →
  (k0, Some v0) ∈ fields row →
  k0 ≠ "" →
  Py.strip k0 = "port" →
  v0 ≠ "" →
  (∀ c, c ∈ list_ascii_of_string v0 → Py.isspace c = true) →
  load_row row = Ok (strip_row row)
  ∧ ((∀ k v, kept_cell (fields row) k v → Py.strip k = "port" → k = k0) →
     strip_row row !! "port" = Some "").
Proof.
  intros Hnd Hin Hk0 Hport Hv0 Hblank. split.
  - apply load_row_ok. split; [done|]. rewrite strip_row_clean_into.
    apply clean_into_is_Some. right. by exists k0, v0.
  - intros Honly.
    destruct (list_elem_of_split _ _ Hin) as (l1 & l2 & Hsplit).
    rewrite strip_row_clean_into, Hsplit.
    change ((k0, Some v0) :: l2) with ([(k0, Some v0)] ++ l2).
    rewrite app_assoc, clean_into_app, clean_into_untouched.
    + rewrite clean_into_snoc, Hport, (strip_blank v0) by done.
      apply lookup_insert_eq.
    + intros k v (Hl2 & Hk & Hv) Hkport.
      assert (k = k0) as ->.
      { apply (Honly k v); [|done]. split; [|done].
        rewrite Hsplit. apply elem_of_app. right. by right. }
      by apply (distinct_names_split row l1 k0 (Some v0) l2 Hnd Hsplit
                  (Some v)).
Qed.

Lemma blank_port_cell_is_accepted_witness :
  load_row blank_port_row = Ok (strip_row blank_port_row)
  ∧ ((∀ k v, kept_cell (fields blank_port_row) k v →
             Py.strip k = "port" → k = " port") →
     strip_row blank_port_row !! "port" = Some "").
Proof.
  apply (blank_port_cell_is_accepted blank_port_row " port" "  ").
  - apply (bool_decide_unpack _). vm_compute. reflexivity.
  - left.
  - done.
  - reflexivity.
  - done.
  - intros c Hc. simpl in Hc.
    repeat (apply elem_of_cons in Hc as [->|Hc]; [reflexivity|]).
    by apply elem_of_nil in Hc.
Defined.

(** ** Cookie file and rate-limit headers *)

Lemma build_payload_no_cookies i proxy :
  cookies (build_payload ∅ i proxy) = None.
Proof. unfold build_payload. simpl. by rewrite lookup_empty. Qed.

(** X6: a missing cookie file is no error: the run is the run over an
    empty cookie object, and no request of it has a [cookies] field. *)
Theorem missing_cookie_file_sends_no_cookies
    (requests_post : list event → string → Payload → post_result)
    (PROFILE_COUNT : Z) (PROXY_CSV : proxy_source) :
  run requests_post PROFILE_COUNT PROXY_CSV CookieFileMissing
    = run requests_post PROFILE_COUNT PROXY_CSV (CookieJson (JObj ∅))
  ∧ ∀ p, p ∈ posts (run requests_post PROFILE_COUNT PROXY_CSV
                      CookieFileMissing).1 →
         cookies p = None.
Proof.
  split; [done|]. intros p Hp.
  destruct (load_proxies PROXY_CSV) as [ps|e] eqn:Hps.
  - destruct (run_posts requests_post PROFILE_COUNT PROXY_CSV
                CookieFileMissing ps ∅ Hps eq_refl) as (k & _ & Hposts & _).
    rewrite Hposts in Hp. apply list_elem_of_fmap in Hp as (i & -> & _).
    apply build_payload_no_cookies.
  - unfold run, main, bind, lift in Hp. rewrite Hps in Hp.
    by apply elem_of_nil in Hp.
Qed.

(** X7: a reply without rate-limit headers counts as 0 remaining on both
    limits, so [check_limits] makes both pauses, 3660 seconds together. *)
Theorem missing_limit_headers_pause_fully (response : Response)
    (h : list event) :
  headers response !! "x-ratelimit-remaining" = None →
  headers response !! "x-ratelimit-remaining-hour" = None →
  check_limits response h =
    ([EPrint (LLimits 0 0); EPrint LRpmWarning; ESleep 60;
      EPrint LRphWarning; ESleep 3600], Ok tt).
Proof.
  intros Hm Hh. apply (check_limits_parsed response 0 0).
  - unfold header_count. by rewrite Hm.
  - unfold header_count. by rewrite Hh.
Qed.

Lemma missing_limit_headers_pause_fully_witness :
  check_limits (plain_reply 200) [] =
    ([EPrint (LLimits 0 0); EPrint LRpmWarning; ESleep 60;
      EPrint LRphWarning; ESleep 3600], Ok tt).
Proof.
  apply (missing_limit_headers_pause_fully (plain_reply 200) []);
    reflexivity.
Defined.

(** ** The API call *)

Lemma sleeps_app t1 t2 : sleeps (t1 ++ t2) = sleeps t1 ++ sleeps t2.
Proof. apply omap_app. Qed.

Lemma total_sleep_app t1 t2 :
  total_sleep (t1 ++ t2) = total_sleep t1 + total_sleep t2.
Proof.
  unfold total_sleep. rewrite sleeps_app.
  induction (sleeps t1) as [|s l IH]; simpl; [done|]. rewrite IH. lia.
Qed.

Lemma total_sleep_limit_events rpm rph :
  0 ≤ total_sleep (limit_events rpm rph) ≤ 3660.
Proof.
  unfold limit_events. destruct (rpm <? 10), (rph <? 10); vm_compute;
    split; congruence.
Qed.

Section ApiFacts.
Variable requests_post : list event → string → Payload → post_result.

Lemma api_post_eq endpoint payload h :
  api_post requests_post endpoint payload h =
    match requests_post h (API_BASE +:+ "/" +:+ Py.lstrip "/" endpoint)
            payload with
    | PostRaises e =>
        ([EPost (API_BASE +:+ "/" +:+ Py.lstrip "/" endpoint) payload],
         Raise (RequestException e))
    | PostResponse r =>
        if is_http_error r
        then ([EPost (API_BASE +:+ "/" +:+ Py.lstrip "/" endpoint) payload],
              Raise (HTTPError r))
        else
          (EPost (API_BASE +:+ "/" +:+ Py.lstrip "/" endpoint) payload
             :: (check_limits r
                   (h ++ [EPost (API_BASE +:+ "/" +:+ Py.lstrip "/" endpoint)
                            payload])).1,
           match (check_limits r
                    (h ++ [EPost (API_BASE +:+ "/" +:+ Py.lstrip "/" endpoint)
                             payload])).2 with
           | Ok _ =>
               match resp_json r with
               | Ok body => getitem body "data"
               | Raise e => Raise e
               end
           | Raise e => Raise e
           end)
    end.
Proof.
  unfold api_post, post, raise_for_status, lift, ret, raise, bind.
  set (url := API_BASE +:+ "/" +:+ Py.lstrip "/" endpoint).
  destruct (requests_post h url payload) as [e|r]; [done|].
  fold (is_http_error r). destruct (is_http_error r); [done|].
  rewrite !app_nil_r.
  destruct (check_limits_cases r (h ++ [EPost url payload]))
    as [(rpm & rph & ->)| ->]; [|done].
  cbn [fst snd]. destruct (resp_json r) as [body|e]; [|by rewrite !app_nil_r].
  destruct (getitem body "data"); by rewrite !app_nil_r.
Qed.

Lemma posts_check_limits r h : posts (check_limits r h).1 = [].
Proof.
  destruct (check_limits_cases r h) as [(rpm & rph & ->)| ->]; [|done].
  apply posts_limit_events.
Qed.

End ApiFacts.

(** X8: [api_post] drops every leading slash of the endpoint before it
    builds the URL, so [profiles], [/profiles] and [//profiles] name the
    same call, and the URL never has two slashes after the base. *)
Theorem api_post_ignores_leading_slashes
    (requests_post : list event → string → Payload → post_result)
    (endpoint : string) (payload : Payload) (h : list event) :
  api_post requests_post (String "/" endpoint) payload h
    = api_post requests_post endpoint payload h
  ∧ api_post requests_post (Py.lstrip "/" endpoint) payload h
    = api_post requests_post endpoint payload h
  ∧ head_char (Py.lstrip "/" endpoint) ≠ Some "/"%char.
Proof.
  split; [done|]. split.
  - unfold api_post, Py.lstrip. by rewrite lstrip_idempotent.
  - intros Hhead. apply head_char_lstrip in Hhead. done.
Qed.

(** X9: one call of [api_post] sends exactly one request, as its first
    event, whatever the outcome: there is no retry, and nothing is printed
    or paused before the request. *)
Theorem api_post_sends_one_request
    (requests_post : list event → string → Payload → post_result)
    (endpoint : string) (payload : Payload) (h : list event) :
  ∃ rest,
    (api_post requests_post endpoint payload h).1 =
      EPost (API_BASE +:+ "/" +:+ Py.lstrip "/" endpoint) payload :: rest
    ∧ posts rest = [].
Proof.
  rewrite api_post_eq.
  destruct (requests_post h _ payload) as [e|r]; [by eexists|].
  destruct (is_http_error r); [by eexists|].
  eexists. split; [done|]. apply posts_check_limits.
Qed.

(** ** The shape of a run *)

Lemma after_reply_raises idx reply h e :
  (after_reply idx reply h).2 = Raise e → iteration_failure e = true.
Proof.
  unfold after_reply. destruct reply as [e'|r]; simpl; [by intros [= <-]|].
  destruct (is_http_error r); [done|].
  destruct (check_limits_cases r h) as [(rpm & rph & ->)| ->];
    [|by intros [= <-]].
  destruct (resp_json r) as [body|e'] eqn:Hbody; simpl.
  - destruct (getitem body "data") as [data|e'] eqn:Hdata; simpl.
    + destruct (getitem data "uuid") as [uuid|e'] eqn:Huuid; simpl; [done|].
      intros [= <-]. by destruct (getitem_raises _ _ _ Huuid) as [->| ->].
    + intros [= <-]. by destruct (getitem_raises _ _ _ Hdata) as [->| ->].
  - intros [= <-]. by rewrite (resp_json_raises _ _ Hbody).
Qed.

Lemma sleeps_limit_events rpm rph :
  sleeps (limit_events rpm rph) =
    (if rpm <? 10 then [60] else []) ++ (if rph <? 10 then [3600] else []).
Proof. unfold limit_events. by destruct (rpm <? 10), (rph <? 10). Qed.

Lemma sleeps_after_reply idx reply h :
  Forall (λ s, s = 60 ∨ s = 3600) (sleeps (after_reply idx reply h).1)
  ∧ 0 ≤ total_sleep (after_reply idx reply h).1 ≤ 3660.
Proof.
  assert (∀ rpm rph,
    Forall (λ s, s = 60 ∨ s = 3600) (sleeps (limit_events rpm rph))) as Hl.
  { intros rpm rph. rewrite sleeps_limit_events.
    destruct (rpm <? 10), (rph <? 10); simpl;
      repeat (constructor; [auto|]); constructor. }
  unfold after_reply.
  destruct reply as [e'|r];
    [split; [constructor|vm_compute; split; congruence]|].
  destruct (is_http_error r);
    [split; [constructor|vm_compute; split; congruence]|].
  destruct (check_limits_cases r h) as [(rpm & rph & ->)| ->];
    [|split; [constructor|vm_compute; split; congruence]].
  pose proof (total_sleep_limit_events rpm rph) as Hb.
  destruct (resp_json r) as [body|]; [|split; [apply Hl|apply Hb]].
  destruct (getitem body "data") as [data|]; [|split; [apply Hl|apply Hb]].
  destruct (getitem data "uuid"); [|split; [apply Hl|apply Hb]]. cbn [fst].
  rewrite sleeps_app, total_sleep_app, app_nil_r.
  split; [apply Hl|]. change (total_sleep [_]) with 0. lia.
Qed.

Section RunShape.
Variable requests_post : list event → string → Payload → post_result.

Lemma main_loop_step cm ps (n j : nat) h :
  ps ≠ [] →
  main_loop requests_post cm (seqZ (Z.of_nat j + 1) (Z.of_nat (S n)))
    (cycle_after ps j) h =
    match (after_reply (Z.of_nat j + 1)
             (requests_post h profiles_url
                (spec_request ps cm (Z.of_nat j + 1)))
             (h ++ [EPost profiles_url
                      (spec_request ps cm (Z.of_nat j + 1))])) with
    | (evs, Ok _) =>
        (EPost profiles_url (spec_request ps cm (Z.of_nat j + 1)) :: evs
           ++ (main_loop requests_post cm
                 (seqZ (Z.of_nat (S j) + 1) (Z.of_nat n))
                 (cycle_after ps (S j))
                 (h ++ EPost profiles_url
                         (spec_request ps cm (Z.of_nat j + 1)) :: evs)).1,
         (main_loop requests_post cm
            (seqZ (Z.of_nat (S j) + 1) (Z.of_nat n))
            (cycle_after ps (S j))
            (h ++ EPost profiles_url
                    (spec_request ps cm (Z.of_nat j + 1)) :: evs)).2)
    | (evs, Raise e) =>
        (EPost profiles_url (spec_request ps cm (Z.of_nat j + 1)) :: evs,
         Raise e)
    end.
Proof.
  intros Hne. rewrite seqZ_cons by lia. cbn [main_loop].
  replace (Z.pred (Z.of_nat (S n))) with (Z.of_nat n) by lia.
  replace (Z.succ (Z.of_nat j + 1)) with (Z.of_nat (S j) + 1) by lia.
  unfold bind. rewrite loop_body_at by done. cbv zeta.
  destruct (after_reply _ _ _) as [evs [[]|e]]; cbn [fst snd]; [|done].
  by destruct (main_loop requests_post cm _ (cycle_after ps (S j)) _).
Qed.

Lemma main_loop_raises cm ps (n j : nat) h e :
  ps ≠ [] →
  (main_loop requests_post cm (seqZ (Z.of_nat j + 1) (Z.of_nat n))
     (cycle_after ps j) h).2 = Raise e →
  iteration_failure e = true
  ∧ posts (main_loop requests_post cm (seqZ (Z.of_nat j + 1) (Z.of_nat n))
             (cycle_after ps j) h).1 ≠ [].
Proof.
  intros Hne. revert j h. induction n as [|n IH]; intros j h; [done|].
  rewrite main_loop_step by done.
  pose proof (after_reply_raises (Z.of_nat j + 1)
    (requests_post h profiles_url (spec_request ps cm (Z.of_nat j + 1)))
    (h ++ [EPost profiles_url (spec_request ps cm (Z.of_nat j + 1))]) e)
    as Hraise.
  destruct (after_reply _ _ _) as [evs [[]|e']]; cbn [fst snd] in *.
  - intros He. split; [|done]. by apply IH in He as [? _].
  - intros [= ->]. split; [by apply Hraise|done].
Qed.

Lemma main_loop_sleeps cm ps (n j : nat) h :
  ps ≠ [] →
  Forall (λ s, s = 60 ∨ s = 3600)
    (sleeps (main_loop requests_post cm
               (seqZ (Z.of_nat j + 1) (Z.of_nat n)) (cycle_after ps j) h).1)
  ∧ 0 ≤ total_sleep
          (main_loop requests_post cm
             (seqZ (Z.of_nat j + 1) (Z.of_nat n)) (cycle_after ps j) h).1
      ≤ 3660 * len (posts (main_loop requests_post cm
                             (seqZ (Z.of_nat j + 1) (Z.of_nat n))
                             (cycle_after ps j) h).1).
Proof.
  intros Hne. revert j h. induction n as [|n IH]; intros j h.
  - split; [constructor|]. by vm_compute.
  - rewrite main_loop_step by done.
    set (p := spec_request ps cm (Z.of_nat j + 1)).
    pose proof (sleeps_after_reply (Z.of_nat j + 1)
      (requests_post h profiles_url p) (h ++ [EPost profiles_url p]))
      as [Hall Hb].
    pose proof (posts_after_reply (Z.of_nat j + 1)
      (requests_post h profiles_url p) (h ++ [EPost profiles_url p]))
      as Hnone.
    destruct (after_reply _ _ _) as [evs [[]|e']]; cbn [fst snd] in *.
    + destruct (IH (S j) (h ++ EPost profiles_url p :: evs)) as [IH1 IH2].
      change (EPost profiles_url p :: evs ++ ?t)
        with ([EPost profiles_url p] ++ evs ++ t).
      rewrite !sleeps_app, !total_sleep_app, !posts_app, Hnone.
      change (sleeps [EPost profiles_url p]) with (@nil Z).
      change (posts [EPost profiles_url p]) with [p].
      split; [simpl; apply Forall_app; by split|].
      change (total_sleep [EPost profiles_url p]) with 0.
      unfold len in *. rewrite !length_app. simpl length. lia.
    + change (EPost profiles_url p :: evs)
        with ([EPost profiles_url p] ++ evs).
      rewrite !sleeps_app, !total_sleep_app, !posts_app, Hnone.
      change (sleeps [EPost profiles_url p]) with (@nil Z).
      change (posts [EPost profiles_url p]) with [p].
      split; [done|].
      change (total_sleep [EPost profiles_url p]) with 0.
      unfold len. simpl length. lia.
Qed.

End RunShape.

Lemma run_main_loop requests_post count path cpath ps cm :
  load_proxies path = Ok ps →
  load_cookies cpath = Ok cm →
  run requests_post count path cpath =
    ((main_loop requests_post cm
        (seqZ (Z.of_nat 0 + 1) (Z.of_nat (Z.to_nat (total_of count ps))))
        (cycle_after ps 0) []).1,
     match (main_loop requests_post cm
              (seqZ (Z.of_nat 0 + 1) (Z.of_nat (Z.to_nat (total_of count ps))))
              (cycle_after ps 0) []).2 with
     | Ok _ => Ok tt
     | Raise e => Raise e
     end)
  ∧ ps ≠ [].
Proof.
  intros Hps Hcm.
  assert (ps ≠ []) as Hne by (by apply load_proxies_ok in Hps as [? _]).
  pose proof (total_of_pos count ps Hne) as Hpos.
  split; [|done].
  by rewrite (run_eq _ _ _ _ ps cm), range_from_1, <- cycle_after_0
    by (done || lia).
Qed.

Lemma lookup_join_replicate {A} (ps : list A) (q n : nat) :
  (n < q * length ps)%nat →
  mjoin (replicate q ps) !! n = ps !! (n mod length ps)%nat.
Proof.
  revert n. induction q as [|q IH]; intros n Hn; [lia|]. simpl.
  destruct (decide (n < length ps)%nat) as [Hlt|Hge].
  - by rewrite lookup_app_l, Nat.mod_small.
  - rewrite lookup_app_r, IH by lia. f_equal.
    assert (length ps ≠ 0)%nat as Hp by lia.
    replace n with ((n - length ps) + 1 * length ps)%nat at 2 by lia.
    by rewrite Nat.Div0.mod_add.
Qed.

Lemma length_join_replicate {A} (ps : list A) (q : nat) :
  length (mjoin (replicate q ps)) = (q * length ps)%nat.
Proof.
  induction q as [|q IH]; simpl; [done|]. rewrite length_app, IH. lia.
Qed.

Lemma title_of_index_inj :
  Inj (=) (=) (λ i : Z, "BatchProfile_" +:+ pretty i).
Proof. intros i j Hij. by apply (inj (String.app _)), (inj pretty) in Hij. Qed.

(** X10: a run sends at most one request per iteration and never repeats
    one: the titles of its requests are [BatchProfile_1], [BatchProfile_2],
    ... up to some [k] not above the total, without duplicate, and [k] is
    the total when the run ends normally. *)
Theorem run_sends_each_profile_once
    (requests_post : list event → string → Payload → post_result)
    (PROFILE_COUNT : Z) (PROXY_CSV : proxy_source) (COOKIE_JSON : cookie_source)
    (ps : list (gmap string string)) (cm : gmap string json) :
  load_proxies PROXY_CSV = Ok ps →
  load_cookies COOKIE_JSON = Ok cm →
  ∃ k : Z,
    0 ≤ k ≤ total_of PROFILE_COUNT ps
    ∧ title <$> posts (run requests_post PROFILE_COUNT PROXY_CSV
                         COOKIE_JSON).1
      = (λ i, "BatchProfile_" +:+ pretty i) <$> seqZ 1 k
    ∧ NoDup (title <$> posts (run requests_post PROFILE_COUNT PROXY_CSV
                                COOKIE_JSON).1)
    ∧ ((run requests_post PROFILE_COUNT PROXY_CSV COOKIE_JSON).2 = Ok tt →
       k = total_of PROFILE_COUNT ps).
Proof.
  intros Hps Hcm.
  assert (ps ≠ []) as Hne by (by apply load_proxies_ok in Hps as [? _]).
  pose proof (total_of_pos PROFILE_COUNT ps Hne) as Hpos.
  destruct (run_posts requests_post PROFILE_COUNT _ _ ps cm Hps Hcm)
    as (k & Hk & Hposts & Hok).
  exists (Z.of_nat k). rewrite Hposts, <- list_fmap_compose.
  split; [lia|]. split; [done|]. split.
  - pose proof title_of_index_inj as Hinj.
    apply (NoDup_fmap_2 (λ i, "BatchProfile_" +:+ pretty i)), NoDup_seqZ.
  - intros Hrun. rewrite (Hok Hrun). lia.
Qed.

Lemma run_sends_each_profile_once_witness :
  ∃ k : Z,
    0 ≤ k ≤ total_of 3 demo_proxies
    ∧ title <$> posts (run (refuse_nth 1) 3 (ProxyRows demo_rows)
                         CookieFileMissing).1
      = (λ i, "BatchProfile_" +:+ pretty i) <$> seqZ 1 k
    ∧ NoDup (title <$> posts (run (refuse_nth 1) 3 (ProxyRows demo_rows)
                                CookieFileMissing).1)
    ∧ ((run (refuse_nth 1) 3 (ProxyRows demo_rows) CookieFileMissing).2
         = Ok tt →
       k = total_of 3 demo_proxies).
Proof.
  apply (run_sends_each_profile_once (refuse_nth 1) 3 (ProxyRows demo_rows)
           CookieFileMissing demo_proxies ∅).
  - vm_compute. reflexivity.
  - reflexivity.
Defined.

(** X11: when the override is a multiple [q * P] of the number of proxies
    and the run ends normally, the proxies of its requests are [q] full
    passes over the loaded list: every proxy is used exactly [q] times. *)
Theorem full_passes_use_every_proxy_equally
    (requests_post : list event → string → Payload → post_result)
    (PROXY_CSV : proxy_source) (COOKIE_JSON : cookie_source)
    (ps : list (gmap string string)) (cm : gmap string json) (q : nat) :
  load_proxies PROXY_CSV = Ok ps →
  load_cookies COOKIE_JSON = Ok cm →
  (0 < q)%nat →
  (run requests_post (Z.of_nat q * len ps) PROXY_CSV COOKIE_JSON).2 = Ok tt →
  proxy <$> posts (run requests_post (Z.of_nat q * len ps) PROXY_CSV
                     COOKIE_JSON).1
  = mjoin (replicate q ps).
Proof.
  intros Hps Hcm Hq Hrun.
  assert (ps ≠ []) as Hne by (by apply load_proxies_ok in Hps as [? _]).
  pose proof (length_pos_nonempty ps Hne) as Hlen.
  destruct (run_posts requests_post (Z.of_nat q * len ps) _ _ ps cm Hps Hcm)
    as (k & _ & Hposts & Hok).
  rewrite Hposts, (Hok Hrun).
  assert (total_of (Z.of_nat q * len ps) ps = Z.of_nat (q * length ps)) as ->.
  { unfold total_of. rewrite (proj2 (Z.ltb_lt 0 _)) by lia.
    unfold len. lia. }
  rewrite Nat2Z.id. apply list_eq. intros n.
  destruct (decide (n < q * length ps)%nat) as [Hn|Hn].
  - rewrite lookup_join_replicate, !list_lookup_fmap by done.
    rewrite (proj2 (lookup_seqZ 1 _ n (1 + Z.of_nat n))) by (split; [done|lia]).
    change (proxy <$> (spec_request ps cm <$> Some (1 + Z.of_nat n)))
      with (Some (proxy (spec_request ps cm (1 + Z.of_nat n)))).
    rewrite <- (spec_request_proxy ps cm (1 + Z.of_nat n)) by done.
    f_equal. unfold len. replace (1 + Z.of_nat n - 1) with (Z.of_nat n) by lia.
    by rewrite <- Nat2Z.inj_mod, Nat2Z.id.
  - rewrite !lookup_ge_None_2; [done| |].
    + rewrite length_join_replicate. lia.
    + rewrite !length_fmap, length_seqZ. lia.
Qed.

Lemma full_passes_use_every_proxy_equally_witness :
  proxy <$> posts (run (refuse_nth 1) (Z.of_nat 2 * len demo_proxies)
                     (ProxyRows demo_rows) CookieFileMissing).1
  = mjoin (replicate 2 demo_proxies).
Proof.
  apply (full_passes_use_every_proxy_equally (refuse_nth 1)
           (ProxyRows demo_rows) CookieFileMissing demo_proxies ∅ 2).
  - vm_compute. reflexivity.
  - reflexivity.
  - lia.
  - vm_compute. reflexivity.
Defined.

Lemma load_rows_raises rows acc e :
  load_rows rows acc = Raise e → ∃ row, e = SystemExit (InvalidProxyRow row).
Proof.
  revert acc. induction rows as [|row rows IH]; intros acc; simpl; [done|].
  destruct (load_row row) as [p|e'] eqn:Hrow; [apply IH|].
  intros [= <-]. exists row. by apply load_row_raise.
Qed.

Lemma load_proxies_raises path e :
  load_proxies path = Raise e → e = CsvError ∨ ∃ m, e = SystemExit m.
Proof.
  unfold load_proxies. destruct path as [| |rows].
  - intros [= <-]. right. by eexists.
  - intros [= <-]. by left.
  - destruct (load_rows rows []) as [[|p ps]|e'] eqn:Hrows.
    + intros [= <-]. right. by eexists.
    + done.
    + intros [= <-]. right.
      destruct (load_rows_raises _ _ _ Hrows) as [row ->]. by eexists.
Qed.

Lemma load_cookies_raises path e :
  load_cookies path = Raise e →
  e = JSONDecodeError ∨ e = SystemExit CookiesNotObject.
Proof.
  unfold load_cookies. destruct path as [| |[| | | | | |m]]; try done.
  - intros [= <-]. by left.
  - intros [= <-]. by right.
  - intros [= <-]. by right.
  - intros [= <-]. by right.
  - intros [= <-]. by right.
  - intros [= <-]. by right.
  - intros [= <-]. by right.
Qed.

(** X12: every way a run can fail.  Either a loader fails, first the proxy
    loader and then the cookie loader, and then nothing at all has happened;
    or an iteration fails after its request was sent, with a transport
    error, a [ValueError], a [JSONDecodeError], a [TypeError] or a
    [KeyError] for [data] or [uuid].  A run never ends with an [HTTPError]
    or with [StopIteration]. *)
Theorem run_failure_cases
    (requests_post : list event → string → Payload → post_result)
    (PROFILE_COUNT : Z) (PROXY_CSV : proxy_source) (COOKIE_JSON : cookie_source)
    (e : exn) :
  (run requests_post PROFILE_COUNT PROXY_CSV COOKIE_JSON).2 = Raise e →
  ((load_proxies PROXY_CSV = Raise e
    ∧ (run requests_post PROFILE_COUNT PROXY_CSV COOKIE_JSON).1 = [])
   ∨ ((∃ ps, load_proxies PROXY_CSV = Ok ps)
      ∧ load_cookies COOKIE_JSON = Raise e
      ∧ (run requests_post PROFILE_COUNT PROXY_CSV COOKIE_JSON).1 = [])
   ∨ ((∃ ps cm, load_proxies PROXY_CSV = Ok ps
                ∧ load_cookies COOKIE_JSON = Ok cm)
      ∧ iteration_failure e = true
      ∧ posts (run requests_post PROFILE_COUNT PROXY_CSV COOKIE_JSON).1 ≠ []))
  ∧ (∀ r, e ≠ HTTPError r)
  ∧ e ≠ StopIteration.
Proof.
  intros Hrun.
  assert ((load_proxies PROXY_CSV = Raise e
           ∧ (run requests_post PROFILE_COUNT PROXY_CSV COOKIE_JSON).1 = [])
          ∨ ((∃ ps, load_proxies PROXY_CSV = Ok ps)
             ∧ load_cookies COOKIE_JSON = Raise e
             ∧ (run requests_post PROFILE_COUNT PROXY_CSV COOKIE_JSON).1 = [])
          ∨ ((∃ ps cm, load_proxies PROXY_CSV = Ok ps
                       ∧ load_cookies COOKIE_JSON = Ok cm)
             ∧ iteration_failure e = true
             ∧ posts (run requests_post PROFILE_COUNT PROXY_CSV
                        COOKIE_JSON).1 ≠ [])) as Hcases.
  { revert Hrun. destruct (load_proxies PROXY_CSV) as [ps|e1] eqn:Hps.
    - destruct (load_cookies COOKIE_JSON) as [cm|e2] eqn:Hcm.
      + destruct (run_main_loop requests_post PROFILE_COUNT _ _ ps cm Hps Hcm)
          as [-> Hne].
        cbn [fst snd]. intros He. right. right.
        split; [by exists ps, cm|].
        apply (main_loop_raises requests_post cm ps _ 0 [] e Hne).
        revert He.
        by destruct (main_loop requests_post cm _ (cycle_after ps 0) []).2
          as [?|?]; intros [= ->].
      + unfold run, main, bind, lift. rewrite Hps, Hcm. simpl.
        intros [= ->]. right. left. split; [by exists ps|done].
    - unfold run, main, bind, lift. rewrite Hps. simpl.
      intros [= ->]. by left. }
  split; [done|].
  destruct Hcases as [[Hp _]|[(_ & Hc & _)|(_ & Hit & _)]].
  - by destruct (load_proxies_raises _ _ Hp) as [->|[m ->]].
  - by destruct (load_cookies_raises _ _ Hc) as [->| ->].
  - by destruct e.
Qed.

Lemma run_failure_cases_witness :
  ((load_proxies (ProxyRows demo_rows) = Raise (KeyError "uuid")
    ∧ (run (always (PostResponse (created_without_uuid))) 0
         (ProxyRows demo_rows) CookieFileMissing).1 = [])
   ∨ ((∃ ps, load_proxies (ProxyRows demo_rows) = Ok ps)
      ∧ load_cookies CookieFileMissing = Raise (KeyError "uuid")
      ∧ (run (always (PostResponse (created_without_uuid))) 0
           (ProxyRows demo_rows) CookieFileMissing).1 = [])
   ∨ ((∃ ps cm, load_proxies (ProxyRows demo_rows) = Ok ps
                ∧ load_cookies CookieFileMissing = Ok cm)
      ∧ iteration_failure (KeyError "uuid") = true
      ∧ posts (run (always (PostResponse (created_without_uuid))) 0
                 (ProxyRows demo_rows) CookieFileMissing).1 ≠ []))
  ∧ (∀ r, KeyError "uuid" ≠ HTTPError r)
  ∧ KeyError "uuid" ≠ StopIteration.
Proof.
  apply (run_failure_cases (always (PostResponse created_without_uuid)) 0
           (ProxyRows demo_rows) CookieFileMissing (KeyError "uuid")).
  vm_compute. reflexivity.
Defined.

(** X13: a run pauses only for 60 or 3600 seconds at a time, and at most
    3660 seconds per request sent: the total pause is bounded by 3660 times
    the number of requests. *)
Theorem run_pauses_are_bounded
    (requests_post : list event → string → Payload → post_result)
    (PROFILE_COUNT : Z) (PROXY_CSV : proxy_source)
    (COOKIE_JSON : cookie_source) :
  Forall (λ s, s = 60 ∨ s = 3600)
    (sleeps (run requests_post PROFILE_COUNT PROXY_CSV COOKIE_JSON).1)
  ∧ 0 ≤ total_sleep (run requests_post PROFILE_COUNT PROXY_CSV COOKIE_JSON).1
      ≤ 3660 * len (posts (run requests_post PROFILE_COUNT PROXY_CSV
                             COOKIE_JSON).1).
Proof.
  destruct (load_proxies PROXY_CSV) as [ps|e1] eqn:Hps.
  - destruct (load_cookies COOKIE_JSON) as [cm|e2] eqn:Hcm.
    + destruct (run_main_loop requests_post PROFILE_COUNT _ _ ps cm Hps Hcm)
        as [-> Hne].
      cbn [fst]. by apply main_loop_sleeps.
    + unfold run, main, bind, lift. rewrite Hps, Hcm. simpl.
      split; [constructor|by vm_compute].
  - unfold run, main, bind, lift. rewrite Hps. simpl.
    split; [constructor|by vm_compute].
Qed.

(** X14: an iteration whose reply is a success (status outside 400..599,
    both counts read, a body holding [data] with [uuid]) sends the request,
    prints the counts, makes the pauses they call for and prints the line of
    the created profile last: the pauses come before the success line. *)
Theorem successful_iteration_trace
    (requests_post : list event → string → Payload → post_result)
    (cm : gmap string json) (idx : Z)
    (c c' : Itertools.cycle_state (gmap string string))
    (proxy : gmap string string) (h : list event)
    (r : Response) (rpm rph : Z) (body data : gmap string json)
    (uuid : json) :
  Itertools.next c = (Some proxy, c') →
  requests_post h profiles_url (build_payload cm idx proxy) = PostResponse r →
  ¬ 400 ≤ status_code r < 600 →
  py_int (headers_get r "x-ratelimit-remaining" 0) = Ok rpm →
  py_int (headers_get r "x-ratelimit-remaining-hour" 0) = Ok rph →
  json_body r = Some (JObj body) →
  body !! "data" = Some (JObj data) →
  data !! "uuid" = Some uuid →
  loop_body requests_post cm idx c h =
    ([EPost profiles_url (build_payload cm idx proxy);
      EPrint (LLimits rpm rph)]
       ++ (if rpm <? 10 then [EPrint LRpmWarning; ESleep 60] else [])
       ++ (if rph <? 10 then [EPrint LRphWarning; ESleep 3600] else [])
       ++ [EPrint (LCreated idx uuid)],
     Ok c').
Proof.
  intros Hnext Hreply Hstatus Hm Hh Hbody Hdata Huuid.
  rewrite (loop_body_eq _ _ _ _ c' proxy) by done. cbv zeta.
  unfold after_reply. rewrite Hreply.
  assert (is_http_error r = false) as ->.
  { destruct (is_http_error r) eqn:Herr; [|done].
    by apply is_http_error_spec in Herr. }
  rewrite py_int_headers_get in Hm, Hh by reflexivity.
  rewrite (check_limits_parsed r rpm rph).
  - unfold resp_json, getitem. rewrite Hbody, Hdata, Huuid. cbn [fst snd].
    unfold limit_events. by rewrite <- !app_assoc.
  - by destruct (header_count r "x-ratelimit-remaining"); simplify_eq.
  - by destruct (header_count r "x-ratelimit-remaining-hour"); simplify_eq.
Qed.

Lemma successful_iteration_trace_witness :
  loop_body (always (PostResponse (created "5"))) demo_cookies 1
    (Itertools.cycle demo_proxies) [] =
    ([EPost profiles_url
        (build_payload demo_cookies 1
           {[ "host" := "10.0.0.1"; "port" := "8080" ]});
      EPrint (LLimits 5 500)]
       ++ (if 5 <? 10 then [EPrint LRpmWarning; ESleep 60] else [])
       ++ (if 500 <? 10 then [EPrint LRphWarning; ESleep 3600] else [])
       ++ [EPrint (LCreated 1 (JStr "u"))],
     Ok (cycle_after demo_proxies 1)).
Proof.
  apply (successful_iteration_trace (always (PostResponse (created "5")))
           demo_cookies 1 (Itertools.cycle demo_proxies)
           (cycle_after demo_proxies 1)
           {[ "host" := "10.0.0.1"; "port" := "8080" ]} []
           (created "5") 5 500
           {[ "data" := JObj {[ "uuid" := JStr "u" ]} ]}
           {[ "uuid" := JStr "u" ]} (JStr "u")).
  - vm_compute. reflexivity.
  - reflexivity.
  - simpl. lia.
  - vm_compute. reflexivity.
  - vm_compute. reflexivity.
  - reflexivity.
  - vm_compute. reflexivity.
  - vm_compute. reflexivity.
Defined.

(** X15: a count that is zero or negative is no error and means "one
    request per proxy": the run is the run with the count set to the number
    of loaded proxies. *)
Theorem nonpositive_count_means_proxy_count
    (requests_post : list event → string → Payload → post_result)
    (PROFILE_COUNT : Z) (PROXY_CSV : proxy_source) (COOKIE_JSON : cookie_source)
    (ps : list (gmap string string)) :
  PROFILE_COUNT ≤ 0 →
  load_proxies PROXY_CSV = Ok ps →
  run requests_post PROFILE_COUNT PROXY_CSV COOKIE_JSON
  = run requests_post (len ps) PROXY_CSV COOKIE_JSON.
Proof.
  intros Hcount Hps. unfold run, main, bind, lift. rewrite Hps. simpl.
  destruct (load_cookies COOKIE_JSON) as [cm|e]; [|done]. simpl.
  assert (ps ≠ []) as Hne by (by apply load_proxies_ok in Hps as [? _]).
  pose proof (length_pos_nonempty ps Hne) as Hlen.
  assert (total_of PROFILE_COUNT ps = total_of (len ps) ps) as ->; [|done].
  unfold total_of.
  by rewrite (proj2 (Z.ltb_ge 0 PROFILE_COUNT)), (proj2 (Z.ltb_lt 0 (len ps))).
Qed.

Lemma nonpositive_count_means_proxy_count_witness :
  run (refuse_nth 1) (-4) (ProxyRows demo_rows) CookieFileMissing
  = run (refuse_nth 1) (len demo_proxies) (ProxyRows demo_rows)
      CookieFileMissing.
Proof.
  apply (nonpositive_count_means_proxy_count (refuse_nth 1) (-4)
           (ProxyRows demo_rows) CookieFileMissing demo_proxies).
  - lia.
  - vm_compute. reflexivity.
Defined.

(** ** The script as a program *)

Lemma run_starts_with_a_request requests_post count path cpath :
  (run requests_post count path cpath).1 ≠ [] →
  ∃ ps cm rest,
    load_proxies path = Ok ps
    ∧ load_cookies cpath = Ok cm
    ∧ (run requests_post count path cpath).1 =
        EPost profiles_url (spec_request ps cm 1) :: rest.
Proof.
  destruct (load_proxies path) as [ps|e1] eqn:Hps.
  - destruct (load_cookies cpath) as [cm|e2] eqn:Hcm.
    + destruct (run_main_loop requests_post count _ _ ps cm Hps Hcm)
        as [-> Hne].
      pose proof (total_of_pos count ps Hne) as Hpos.
      replace (Z.to_nat (total_of count ps))
        with (S (Z.to_nat (total_of count ps) - 1)) by lia.
      rewrite main_loop_step by done. intros _.
      exists ps, cm. change (Z.of_nat 0 + 1) with 1.
      destruct (after_reply _ _ _) as [evs [[]|e]]; cbn [fst];
        eexists; by repeat split.
    + unfold run, main, bind, lift. rewrite Hps, Hcm. by simpl.
  - unfold run, main, bind, lift. rewrite Hps. by simpl.
Qed.

(** X16: the script does nothing observable, no request, no line and no
    pause, unless all startup checks passed: the token is set and not
    empty, [PROFILE_COUNT] (when set) is an integer literal, the proxy
    file loads and the cookie file loads.  The first thing it then does is
    to send the request of profile 1. *)
Theorem nothing_happens_before_startup_checks
    (environ : gmap string string)
    (proxy_at : string → proxy_source) (cookie_at : string → cookie_source)
    (network : gmap string string →
               list event → string → Payload → post_result) :
  (Startup.script environ proxy_at cookie_at network).1 ≠ [] →
  ∃ s ps cm p rest,
    Startup.configure environ = inr s
    ∧ environ !! "OCTO_API_TOKEN" = Some (Startup.TOKEN s)
    ∧ Startup.TOKEN s ≠ ""
    ∧ Py.int_of_str (Startup.getenv environ "PROFILE_COUNT" "0")
      = Some (Startup.PROFILE_COUNT s)
    ∧ load_proxies (proxy_at (Startup.PROXY_CSV s)) = Ok ps
    ∧ load_cookies (cookie_at (Startup.COOKIE_JSON s)) = Ok cm
    ∧ title p = "BatchProfile_1"
    ∧ (Startup.script environ proxy_at cookie_at network).1 =
        EPost profiles_url p :: rest.
Proof.
  unfold Startup.script.
  destruct (Startup.configure environ) as [f|s] eqn:Hconf; [done|].
  cbn [fst]. intros Hrun.
  apply run_starts_with_a_request in Hrun as (ps & cm & rest & Hps & Hcm & Hev).
  exists s, ps, cm, (spec_request ps cm 1), rest.
  split; [done|].
  unfold Startup.configure, Startup.getenv, py_int in Hconf.
  destruct (environ !! "OCTO_API_TOKEN") as [token|] eqn:Htoken;
    simpl in Hconf; [|done].
  destruct token as [|c token]; simpl in Hconf; [done|].
  destruct (Py.int_of_str (default "0" (environ !! "PROFILE_COUNT")))
    as [count|] eqn:Hcount; [|done].
  injection Hconf as <-. simpl. by repeat split.
Qed.

Lemma nothing_happens_before_startup_checks_witness :
  ∃ s ps cm p rest,
    Startup.configure {[ "OCTO_API_TOKEN" := "secret" ]} = inr s
    ∧ ({[ "OCTO_API_TOKEN" := "secret" ]} : gmap string string)
        !! "OCTO_API_TOKEN" = Some (Startup.TOKEN s)
    ∧ Startup.TOKEN s ≠ ""
    ∧ Py.int_of_str
        (Startup.getenv {[ "OCTO_API_TOKEN" := "secret" ]} "PROFILE_COUNT" "0")
      = Some (Startup.PROFILE_COUNT s)
    ∧ load_proxies ((λ _, ProxyRows demo_rows) (Startup.PROXY_CSV s)) = Ok ps
    ∧ load_cookies ((λ _, CookieFileMissing) (Startup.COOKIE_JSON s)) = Ok cm
    ∧ title p = "BatchProfile_1"
    ∧ (Startup.script {[ "OCTO_API_TOKEN" := "secret" ]}
         (λ _, ProxyRows demo_rows) (λ _, CookieFileMissing)
         (λ _, refuse_nth 1)).1 = EPost profiles_url p :: rest.
Proof.
  apply (nothing_happens_before_startup_checks
           {[ "OCTO_API_TOKEN" := "secret" ]}
           (λ _, ProxyRows demo_rows) (λ _, CookieFileMissing)
           (λ _, refuse_nth 1)).
  vm_compute. discriminate.
Defined.

(** X17: what makes loading the module fail.  It exits for the token
    exactly when [OCTO_API_TOKEN] is unset or empty, whatever the other
    variables hold; with a token it fails, by the [ValueError] of [int],
    exactly when [PROFILE_COUNT] is set to something that is no integer
    literal; otherwise the unset variables take their defaults. *)
Theorem configure_outcomes (environ : gmap string string) :
  (Startup.configure environ = inl Startup.NoToken
   ↔ environ !! "OCTO_API_TOKEN" = None
     ∨ environ !! "OCTO_API_TOKEN" = Some "")
  ∧ (Startup.configure environ = inl Startup.CountNotInt
     ↔ (∃ t, environ !! "OCTO_API_TOKEN" = Some t ∧ t ≠ "")
       ∧ ∃ v, environ !! "PROFILE_COUNT" = Some v ∧ Py.int_of_str v = None)
  ∧ (∀ s, Startup.configure environ = inr s →
          Startup.HEADERS s = {[ "X-Octo-Api-Token" := Startup.TOKEN s ]}
          ∧ Startup.PROXY_CSV s
            = default "proxies.csv" (environ !! "PROXY_FILE")
          ∧ Startup.COOKIE_JSON s
            = default "cookies.json" (environ !! "COOKIE_FILE")
          ∧ (environ !! "PROFILE_COUNT" = None → Startup.PROFILE_COUNT s = 0)).
Proof.
  unfold Startup.configure, Startup.getenv, py_int.
  destruct (environ !! "OCTO_API_TOKEN") as [[|c token]|] eqn:Htoken; simpl.
  - split; [split; [auto|done]|]. split.
    + split; [done|]. by intros [(t & [= <-] & ?) _].
    + done.
  - destruct (environ !! "PROFILE_COUNT") as [v|] eqn:Hv; simpl.
    + destruct (Py.int_of_str v) as [count|] eqn:Hcount.
      * split; [split; [done|by intros [|]]|]. split.
        -- split; [done|]. intros [_ (v' & [= <-] & ?)]. congruence.
        -- intros s [= <-]. simpl. by repeat split.
      * split; [split; [done|by intros [|]]|]. split; [|done].
        split; [|done]. intros _. split; [by eexists|by exists v].
    + change (Py.int_of_str "0") with (Some 0).
      split; [split; [done|by intros [|]]|]. split.
      * split; [done|]. by intros [_ (v' & ? & _)].
      * intros s [= <-]. simpl. by repeat split.
  - split; [split; [auto|done]|]. split.
    + split; [done|]. by intros [(t & ? & _) _].
    + done.
Qed.

(** ** More on rows and on the first request *)

(** X18: in a row with pairwise different names, when several items have
    names that are the same after stripping, the last of them in the order
    of the dict with a non-empty name and value gives the entry: a later
    item overrides an earlier one. *)
Theorem later_column_overrides_earlier (row : csv_row)
    (l1 l2 : list (string * option string)) (k0 v0 : string) :
  distinct_names row →
  fields row = l1 ++ (k0, Some v0) :: l2 →
  k0 ≠ "" →
  v0 ≠ "" →
  (∀ k v, (k, Some v) ∈ l2 → k ≠ "" → v ≠ "" → Py.strip k ≠ Py.strip k0) →
  strip_row row !! Py.strip k0 = Some (Py.strip v0).
Proof.
  intros _ Hsplit Hk0 Hv0 Hlater. rewrite strip_row_clean_into, Hsplit.
  change ((k0, Some v0) :: l2) with ([(k0, Some v0)] ++ l2).
  rewrite app_assoc, clean_into_app, clean_into_untouched.
  - rewrite clean_into_snoc by done. apply lookup_insert_eq.
  - intros k v (Hin & Hk & Hv). by apply (Hlater k v).
Qed.

Lemma later_column_overrides_earlier_witness :
  strip_row padded_port_row !! Py.strip " port " = Some (Py.strip "8080").
Proof.
  apply (later_column_overrides_earlier padded_port_row
           [("port", Some "80")] [("host", Some "h")] " port " "8080").
  - apply (bool_decide_unpack _). vm_compute. reflexivity.
  - reflexivity.
  - done.
  - done.
  - intros k v Hin _ _. apply list_elem_of_singleton in Hin as [= -> ->].
    vm_compute. discriminate.
Defined.

Lemma run_first_event requests_post count path cpath ps cm :
  load_proxies path = Ok ps →
  load_cookies cpath = Ok cm →
  ∃ rest, (run requests_post count path cpath).1 =
            EPost profiles_url (spec_request ps cm 1) :: rest.
Proof.
  intros Hps Hcm.
  destruct (run_main_loop requests_post count _ _ ps cm Hps Hcm) as [-> Hne].
  pose proof (total_of_pos count ps Hne) as Hpos.
  replace (Z.to_nat (total_of count ps))
    with (S (Z.to_nat (total_of count ps) - 1)) by lia.
  rewrite main_loop_step by done. change (Z.of_nat 0 + 1) with 1.
  destruct (after_reply _ _ _) as [evs [[]|e]]; cbn [fst]; by eexists.
Qed.

(** X19: once both files are loaded a run always sends a request, before
    anything else: the request of profile 1, with the first proxy of the
    file, the cookies under key ["0"] when truthy, and the default
    fingerprint. *)
Theorem loaded_run_sends_first_request
    (requests_post : list event → string → Payload → post_result)
    (PROFILE_COUNT : Z) (PROXY_CSV : proxy_source) (COOKIE_JSON : cookie_source)
    (ps : list (gmap string string)) (cm : gmap string json) :
  load_proxies PROXY_CSV = Ok ps →
  load_cookies COOKIE_JSON = Ok cm →
  ∃ p rest,
    (run requests_post PROFILE_COUNT PROXY_CSV COOKIE_JSON).1 =
      EPost "https://app.octobrowser.net/api/v2/automation/profiles" p :: rest
    ∧ title p = "BatchProfile_1"
    ∧ head ps = Some (proxy p)
    ∧ fingerprint p = DEFAULT_FP
    ∧ cookies p = match cm !! "0" with
                  | Some v => if truthy v then Some v else None
                  | None => None
                  end.
Proof.
  intros Hps Hcm.
  destruct (run_first_event requests_post PROFILE_COUNT _ _ ps cm Hps Hcm)
    as [rest Hrun].
  exists (spec_request ps cm 1), rest. split; [done|]. split; [done|].
  assert (ps ≠ []) as Hne by (by apply load_proxies_ok in Hps as [? _]).
  split.
  - pose proof (spec_request_proxy ps cm 1 Hne) as Hp.
    rewrite Z.sub_diag, Z.mod_0_l in Hp
      by (pose proof (length_pos_nonempty ps Hne); lia).
    by rewrite head_lookup.
  - split; [done|]. unfold spec_request, build_payload. simpl.
    change (pretty (1 - 1)) with "0". by destruct (cm !! "0").
Qed.

Lemma loaded_run_sends_first_request_witness :
  ∃ p rest,
    (run (refuse_nth 1) 0 (ProxyRows demo_rows)
       (CookieJson (JObj demo_cookies))).1 =
      EPost "https://app.octobrowser.net/api/v2/automation/profiles" p :: rest
    ∧ title p = "BatchProfile_1"
    ∧ head demo_proxies = Some (proxy p)
    ∧ fingerprint p = DEFAULT_FP
    ∧ cookies p = match demo_cookies !! "0" with
                  | Some v => if truthy v then Some v else None
                  | None => None
                  end.
Proof.
  apply (loaded_run_sends_first_request (refuse_nth 1) 0 (ProxyRows demo_rows)
           (CookieJson (JObj demo_cookies)) demo_proxies demo_cookies).
  - vm_compute. reflexivity.
  - reflexivity.
Defined.

(** ** The reader of the proxy file *)

Lemma setitem_keys {V} k (v : V) d :
  (Csv.setitem k v d).*1 = if decide (k ∈ d.*1) then d.*1 else d.*1 ++ [k].
Proof.
  induction d as [|[k' v'] d IH].
  - rewrite decide_False by (rewrite fmap_nil; apply not_elem_of_nil). done.
  - cbn [Csv.setitem]. destruct (decide (k' = k)) as [->|Hne].
    + rewrite !fmap_cons. cbn [fst]. rewrite decide_True; [done|]. left.
    + rewrite !fmap_cons, IH. cbn [fst].
      destruct (decide (k ∈ d.*1)) as [Hin|Hnin].
      * rewrite decide_True; [done|]. by right.
      * rewrite decide_False; [done|].
        intros [?|?]%elem_of_cons; congruence.
Qed.

Lemma setitem_NoDup {V} k (v : V) d :
  NoDup d.*1 → NoDup (Csv.setitem k v d).*1.
Proof.
  intros Hd. rewrite setitem_keys. destruct (decide (k ∈ d.*1)); [done|].
  apply NoDup_app. split; [done|]. split.
  - intros x Hx Hk. apply list_elem_of_singleton in Hk as ->. done.
  - apply NoDup_singleton.
Qed.

Lemma setitem_elem_of {V} k (v : V) d k' v' :
  NoDup d.*1 →
  (k', v') ∈ Csv.setitem k v d
  ↔ (k' = k ∧ v' = v) ∨ (k' ≠ k ∧ (k', v') ∈ d).
Proof.
  induction d as [|[k1 v1] d IH]; simpl; intros Hd.
  - rewrite list_elem_of_singleton. split.
    + intros [= -> ->]. by left.
    + intros [[-> ->]|[_ Hin]]; [done|]. by apply elem_of_nil in Hin.
  - apply NoDup_cons in Hd as [Hk1 Hd].
    destruct (decide (k1 = k)) as [->|Hne].
    + rewrite !elem_of_cons. split.
      * intros [[= -> ->]|Hin]; [by left|]. right. split; [|by right].
        intros ->. apply Hk1.
        apply list_elem_of_fmap. by exists (k, v').
      * intros [[-> ->]|[Hne [[= ? ?]|Hin]]]; [by left|done|by right].
    + rewrite !elem_of_cons, IH by done. split.
      * intros [[= -> ->]|[[-> ->]|[Hk Hin]]].
        -- right. split; [done|by left].
        -- by left.
        -- right. split; [done|by right].
      * intros [[-> ->]|[Hk [[= -> ->]|Hin]]].
        -- right. by left.
        -- by left.
        -- right. right. by split.
Qed.

Lemma foldl_setitem_NoDup {V} (cols : list (string * V)) d :
  NoDup d.*1 → NoDup (foldl (λ d c, Csv.setitem c.1 c.2 d) d cols).*1.
Proof.
  revert d. induction cols as [|c cols IH]; intros d Hd; simpl; [done|].
  by apply IH, setitem_NoDup.
Qed.

Lemma last_cell_snoc k cols c :
  last_cell k (cols ++ [c]) =
    if decide (c.1 = k) then Some c.2 else last_cell k cols.
Proof.
  unfold last_cell. rewrite filter_app, filter_cons, filter_nil.
  destruct (decide (c.1 = k)) as [Hk|Hk].
  - by rewrite last_snoc.
  - by rewrite app_nil_r.
Qed.

Lemma foldl_setitem_elem_of (cols : list (string * option string)) k v :
  (k, v) ∈ foldl (λ d c, Csv.setitem c.1 c.2 d) [] cols
  ↔ last_cell k cols = Some v.
Proof.
  induction cols as [|c cols IH] using rev_ind.
  - simpl. split; [by intros ?%elem_of_nil|done].
  - rewrite foldl_app, last_cell_snoc. simpl.
    rewrite setitem_elem_of by apply foldl_setitem_NoDup, NoDup_nil_2.
    rewrite IH. destruct (decide (c.1 = k)) as [<-|Hne].
    + split.
      * intros [[_ ->]|[? _]]; done.
      * intros [= ->]. by left.
    + split.
      * intros [[-> _]|[_ ?]]; done.
      * intros Hlast. right. split; [done|]. done.
Qed.

Lemma columns_nil fieldnames :
  columns fieldnames [] = (λ k, (k, None)) <$> fieldnames.
Proof.
  induction fieldnames as [|k ks IH]; simpl; [done|]. by rewrite IH.
Qed.

Lemma columns_zip fieldnames row :
  columns fieldnames row =
    (prod_map id Some <$> zip fieldnames row)
      ++ ((λ k, (k, None)) <$> drop (length row) fieldnames).
Proof.
  revert row. induction fieldnames as [|k ks IH]; intros row.
  - by rewrite drop_nil.
  - destruct row as [|c row].
    + by rewrite columns_nil.
    + simpl. f_equal. apply IH.
Qed.

Lemma fields_DictReader_row fieldnames row :
  fields (Csv.DictReader_row fieldnames row) =
    foldl (λ d c, Csv.setitem c.1 c.2 d) [] (columns fieldnames row).
Proof.
  rewrite columns_zip, foldl_app, !foldl_fmap. simpl.
  unfold Csv.DictReader_row, Csv.dict_zip.
  case_bool_decide as Hlong; [|case_bool_decide as Hshort]; simpl.
  - by rewrite drop_ge by lia.
  - done.
  - by rewrite drop_ge by lia.
Qed.

Lemma surplus_DictReader_row fieldnames row :
  surplus (Csv.DictReader_row fieldnames row) = drop (length fieldnames) row.
Proof.
  unfold Csv.DictReader_row.
  case_bool_decide as Hlong; [|case_bool_decide as Hshort]; simpl.
  - done.
  - by rewrite drop_ge by lia.
  - by rewrite drop_ge by lia.
Qed.

Lemma load_row_accepted row :
  load_row row = Ok (strip_row row)
  ↔ ∃ k0 v0, kept_cell (fields row) k0 v0 ∧ Py.strip k0 = "port".
Proof.
  rewrite load_row_ok, strip_row_clean_into. split.
  - intros [_ [port Hport]].
    apply clean_into_lookup in Hport as [Hport|(k0 & v0 & Hkept & Hk & _)];
      [done|].
    by exists k0, v0.
  - intros (k0 & v0 & Hkept & Hk). split; [done|].
    apply clean_into_is_Some. right. by exists k0, v0.
Qed.

(** X20: the dict that [csv.DictReader] makes of a record has pairwise
    different names; its item for a name holds the cell of the last column
    so named, [None] when the record ends before that column; and the
    values beyond the header are the surplus. *)
Theorem DictReader_row_keeps_last_cell (fieldnames row : list string) :
  distinct_names (Csv.DictReader_row fieldnames row)
  ∧ (∀ k v, (k, v) ∈ fields (Csv.DictReader_row fieldnames row)
            ↔ last_cell k (columns fieldnames row) = Some v)
  ∧ surplus (Csv.DictReader_row fieldnames row)
    = drop (length fieldnames) row.
Proof.
  split; [|split].
  - unfold distinct_names. rewrite fields_DictReader_row.
    apply foldl_setitem_NoDup, NoDup_nil_2.
  - intros k v. by rewrite fields_DictReader_row, foldl_setitem_elem_of.
  - apply surplus_DictReader_row.
Qed.

(** X21: a record passes the port check of [load_proxies] exactly when,
    for some non-empty name that is [port] after stripping, the last column
    so named holds a non-empty cell; an earlier column of that name does
    not count. *)
Theorem record_accepted_iff_last_port_cell (fieldnames row : list string) :
  load_row (Csv.DictReader_row fieldnames row)
  = Ok (strip_row (Csv.DictReader_row fieldnames row))
  ↔ ∃ k0 v0, last_cell k0 (columns fieldnames row) = Some (Some v0)
             ∧ k0 ≠ "" ∧ v0 ≠ "" ∧ Py.strip k0 = "port".
Proof.
  rewrite load_row_accepted. unfold kept_cell.
  setoid_rewrite fields_DictReader_row.
  setoid_rewrite foldl_setitem_elem_of.
  split.
  - intros (k0 & v0 & (Hlast & Hk0 & Hv0) & Hk). by exists k0, v0.
  - intros (k0 & v0 & Hlast & Hk0 & Hv0 & Hk). by exists k0, v0.
Qed.





(** The reader on sample files: a repeated name, a short record, names that
    differ by white space, a long record with a blank line after it, and a
    blank first line. *)
Lemma DictReader_samples :
  Csv.DictReader [["port"; "port"; "host"]; ["80"; ""; "h"]]
  = [ {| fields := [("port", Some ""); ("host", Some "h")]; surplus := [] |} ]
  ∧ Csv.DictReader [["a"; "b"; "a"]; ["1"; "2"]]
    = [ {| fields := [("a", None); ("b", Some "2")]; surplus := [] |} ]
  ∧ Csv.DictReader [["port"; " port "; "port"]; ["1"; "2"; "3"]]
    = [ {| fields := [("port", Some "3"); (" port ", Some "2")];
           surplus := [] |} ]
  ∧ Csv.DictReader [["a"; "b"]; ["1"; "2"; "3"; "4"]; []; ["5"]]
    = [ {| fields := [("a", Some "1"); ("b", Some "2")];
           surplus := ["3"; "4"] |};
        {| fields := [("a", Some "5"); ("b", None)]; surplus := [] |} ]
  ∧ Csv.DictReader [[]; ["1"; "2"]]
    = [ {| fields := []; surplus := ["1"; "2"] |} ].
Proof. vm_compute. done. Qed.

(** X23: when every record after the header is empty, as for a file of a
    header line followed by blank lines only, the reader yields no row and
    [load_proxies] exits with the message that no proxies were loaded. *)
Theorem file_without_records_loads_nothing
    (fieldnames : list string) (rows : list (list string)) :
  Forall (λ row, row = []) rows →
  Csv.DictReader (fieldnames :: rows) = []
  ∧ load_proxies (ProxyRows (Csv.DictReader (fieldnames :: rows)))
    = Raise (SystemExit NoProxiesLoaded).
Proof.
  intros Hblank.
  assert (Csv.DictReader (fieldnames :: rows) = []) as ->; [|done].
  unfold Csv.DictReader.
  induction Hblank as [|row rows -> _ IH]; [done|].
  rewrite filter_cons. by destruct (decide ([] ≠ [])).
Qed.

Lemma file_without_records_loads_nothing_witness :
  Csv.DictReader (["host"; "port"] :: [[]; []]) = []
  ∧ load_proxies (ProxyRows (Csv.DictReader (["host"; "port"] :: [[]; []])))
    = Raise (SystemExit NoProxiesLoaded).
Proof.
  apply (file_without_records_loads_nothing ["host"; "port"] [[]; []]).
  by repeat constructor.
Defined.
